(** * Entity field types of the object mapping layer

    A shallow embedding of the field type table of the backend
    (the [module.exports] object holding [base], [string], [array],
    [puter-uuid], [reference], [puter-node], ...), together with the
    properties of its [adapt], [validate], [sql_reference],
    [sql_dereference] and [factory] operations.

    JavaScript values are an inductive type, [typeof] and truthiness are
    functions on it.  A thrown exception and a returned [Error] object are
    kept apart: the first is the [Throw] outcome of a computation, the
    second is the value [VError].  Calls that leave the file
    ([console.log], the filesystem service, the access-control service, an
    entity service, [uuid.v4]) are recorded in a trace, so that "before any
    lookup" and "without consulting the service" are statements about the
    trace. *)

From Stdlib Require Import String Ascii List ZArith Bool Lia.
Import ListNotations.
Set Warnings "-register-all".
Local Open Scope string_scope.

(* ===================================================================== *)
(** ** The fragment of the JavaScript runtime the file relies on *)
(* ===================================================================== *)

Module Js.

(** Field values of the plain objects handed to [APIError.create]. *)
Inductive prim : Type :=
| PUndefined
| PNum (n : Z)
| PStr (s : string).

(** Error objects.  [OMTypeError] is the class declared at the top of the
    file; [JsError] is [new Error(message)]; [TypeError] is raised by the
    runtime itself (a method called on a value that has none);
    [APIError code fields] is [APIError.create(code, null, fields)]. *)
Inductive error : Type :=
| OMTypeError (expected got : string)
| JsError (message : string)
| TypeError (message : string)
| APIError (code : string) (fields : list (string * prim)).

(** [constructor ({ expected, got })] of [OMTypeError] builds this text. *)
Definition error_message (e : error) : string :=
  match e with
  | OMTypeError expected got => "expected " ++ expected ++ ", got " ++ got
  | JsError m => m
  | TypeError m => m
  | APIError code _ => code
  end.

(** An [Entity] of the entity storage: only the identifier kept in its
    private metadata is read here. *)
Record Entity : Type := mkEntity {
  ent_om : string;
  ent_mysql_id : Z
}.

(** An [FSNodeContext]: a handle on a filesystem node. *)
Record FSNodeContext : Type := mkNode {
  node_path : string;
  node_uid : string;
  node_mysql_id : option Z
}.

(** Values.  Numbers are the integers and [NaN]: the file only looks at a
    number through [typeof], truthiness and [===] with [0] and [1], on
    which every other finite number behaves as a non-zero integer. *)
Inductive value : Type :=
| VUndefined
| VNull
| VBool (b : bool)
| VNum (n : Z)
| VNaN
| VBigInt (n : Z)
| VStr (s : string)
| VSymbol (description : string)
| VFunction (name : string)
| VArr (items : list value)
| VObj (fields : list (string * value))
| VEntity (e : Entity)
| VNode (n : FSNodeContext)
| VError (e : error).

Definition typeof (v : value) : string :=
  match v with
  | VUndefined => "undefined"
  | VNull => "object"
  | VBool _ => "boolean"
  | VNum _ | VNaN => "number"
  | VBigInt _ => "bigint"
  | VStr _ => "string"
  | VSymbol _ => "symbol"
  | VFunction _ => "function"
  | VArr _ | VObj _ | VEntity _ | VNode _ | VError _ => "object"
  end.

(** [!! value] *)
Definition truthy (v : value) : bool :=
  match v with
  | VUndefined | VNull | VNaN => false
  | VBool b => b
  | VNum n | VBigInt n => negb (Z.eqb n 0)
  | VStr s => negb (String.eqb s "")
  | _ => true
  end.

Definition is_undefined (v : value) : bool :=
  match v with VUndefined => true | _ => false end.

Definition is_null (v : value) : bool :=
  match v with VNull => true | _ => false end.

(** [value instanceof Entity] and [value instanceof FSNodeContext] *)
Definition instanceof_Entity (v : value) : bool :=
  match v with VEntity _ => true | _ => false end.

Definition instanceof_FSNodeContext (v : value) : bool :=
  match v with VNode _ => true | _ => false end.

(** [s.startsWith(p)] *)
Fixpoint startsWith (s p : string) {struct p} : bool :=
  match p, s with
  | EmptyString, _ => true
  | String _ _, EmptyString => false
  | String a p', String b s' => Ascii.eqb a b && startsWith s' p'
  end.

(** [s.slice(n)] for [0 <= n] *)
Fixpoint slice (s : string) (n : nat) {struct n} : string :=
  match n, s with
  | O, _ => s
  | S _, EmptyString => EmptyString
  | S n', String _ t => slice t n'
  end.

(** [s[0]]: a one-character string, or [undefined] on the empty string. *)
Definition char0 (s : string) : option string :=
  match s with
  | EmptyString => None
  | String c _ => Some (String c EmptyString)
  end.

(** [candidates.includes(s[0])] *)
Definition includes (candidates : list string) (c : option string) : bool :=
  match c with
  | None => false
  | Some x => existsb (String.eqb x) candidates
  end.

(** [s.length] as a number *)
Definition strlen (s : string) : Z := Z.of_nat (String.length s).

Definition arrlen (l : list value) : Z := Z.of_nat (List.length l).

End Js.
Import Js.

(* ===================================================================== *)
(** ** Computations: outcome and trace *)
(* ===================================================================== *)

(** The selectors of [filesystem/node/selectors]. *)
Inductive selector : Type :=
| NodeUIDSelector (uid : string)
| NodeInternalIDSelector (service : string) (id : Z)
| NodePathSelector (path : string).

(** What leaves the file, in the order it happens.  [EvFsNode None] is a
    call of [svc_fs.node] with [undefined] as its selector. *)
Inductive event : Type :=
| EvLog (args : list value)
| EvFsNode (sel : option selector)
| EvRead (service : string) (id : value)
| EvAclCheck (actor : value) (node : value) (permission : string)
| EvAclSafeError (actor : value) (node : value) (permission : string)
| EvUuidV4 (generated : string).

Record world : Type := mkWorld {
  trace : list event;
  uuid_calls : nat
}.

Definition world0 : world := mkWorld [] 0.

Inductive outcome (A : Type) : Type :=
| Ok (a : A)
| Throw (e : error).
Arguments Ok {A} a.
Arguments Throw {A} e.

(** A computation runs from a world and ends in one, having returned or
    thrown.  An [async] function is the same thing here: awaiting it gives
    its value or rethrows its rejection. *)
Definition M (A : Type) : Type := world -> outcome A * world.

Definition ret {A} (a : A) : M A := fun w => (Ok a, w).

Definition throw {A} (e : error) : M A := fun w => (Throw e, w).

Definition bind {A B} (c : M A) (k : A -> M B) : M B :=
  fun w =>
    match c w with
    | (Ok a, w') => k a w'
    | (Throw e, w') => (Throw e, w')
    end.

Definition emit (ev : event) : M unit :=
  fun w => (Ok tt, mkWorld (trace w ++ [ev]) (uuid_calls w)).

Definition lift {A} (o : outcome A) : M A := fun w => (o, w).

Declare Scope js_scope.
Delimit Scope js_scope with js.
Notation "x <- c ;; k" := (bind c (fun x => k))
  (at level 61, c at next level, right associativity) : js_scope.
Notation "c ;;; k" := (bind c (fun _ => k))
  (at level 61, right associativity) : js_scope.
Local Open Scope js_scope.

(** The value a computation ends with, and the events it added. *)
Definition result_of {A} (c : M A) (w : world) : outcome A := fst (c w).
Definition events_of {A} (c : M A) (w : world) : list event := trace (snd (c w)).

(** [console.log(...args)] *)
Definition console_log (args : list value) : M unit := emit (EvLog args).

(* ===================================================================== *)
(** ** Field descriptors and the ambient context *)
(* ===================================================================== *)

(** [descriptor.regex]: its printed form and the strings it matches. *)
Record regex : Type := mkRegex {
  re_source : string;
  re_test : string -> bool
}.

(** The constraint configuration of one field.  A field is [None] when the
    descriptor does not own the property. *)
Record descriptor : Type := mkDescriptor {
  maxlen : option Z;
  minlen : option Z;
  d_regex : option regex;
  d_mod : option Z;
  prefix : option string;
  service : option string;
  debug : bool;
  fs_permission : option string
}.

Definition no_constraints : descriptor :=
  mkDescriptor None None None None None None false None.

(** [descriptor.maxlen] read as a plain property: [undefined] if absent. *)
Definition prop_num (o : option Z) : prim :=
  match o with Some n => PNum n | None => PUndefined end.

(** [descriptor.prefix + '-'] *)
Definition prefix_dash (d : descriptor) : string :=
  match prefix d with Some p => p | None => "undefined" end ++ "-".

(** [!! descriptor.service] *)
Definition service_name (d : descriptor) : option string :=
  match service d with
  | Some s => if String.eqb s "" then None else Some s
  | None => None
  end.

Record User : Type := mkUser { username : string }.

(** The cooperating services, as the service container hands them out. *)
Record AclService : Type := mkAcl {
  check : value -> value -> string -> outcome value;
  get_safe_acl_error : value -> value -> string -> outcome value
}.

Record FsService : Type := mkFs {
  node : option selector -> outcome value
}.

Record EntityService : Type := mkEntityService {
  read : value -> outcome value
}.

Record Context : Type := mkContext {
  ctx_user : option User;
  ctx_actor : value;
  svc_acl : AclService;
  svc_filesystem : FsService;
  svc_entity : string -> outcome EntityService
}.

Definition with_acl (ctx : Context) (a : AclService) : Context :=
  mkContext (ctx_user ctx) (ctx_actor ctx) a (svc_filesystem ctx) (svc_entity ctx).

(** Service calls: the call is recorded, then its answer is the outcome. *)
Definition call_fs_node (ctx : Context) (sel : option selector) : M value :=
  emit (EvFsNode sel) ;;; lift (node (svc_filesystem ctx) sel).

Definition call_read (name : string) (svc : EntityService) (v : value) : M value :=
  emit (EvRead name v) ;;; lift (read svc v).

Definition call_acl_check (ctx : Context) (actor v : value) (perm : string) : M value :=
  emit (EvAclCheck actor v perm) ;;; lift (check (svc_acl ctx) actor v perm).

Definition call_acl_safe_error (ctx : Context) (actor v : value) (perm : string) : M value :=
  emit (EvAclSafeError actor v perm) ;;; lift (get_safe_acl_error (svc_acl ctx) actor v perm).

(* ===================================================================== *)
(** ** Vocabulary of the properties *)
(* ===================================================================== *)

(** The first segment of a path: what stands between the leading [/] and
    the next one. *)
Fixpoint until_slash (s : string) : string :=
  match s with
  | EmptyString => EmptyString
  | String c t => if Ascii.eqb c "/" then EmptyString else String c (until_slash t)
  end.

Definition first_segment (p : string) : string :=
  match p with
  | String c t => if Ascii.eqb c "/" then until_slash t else until_slash p
  | EmptyString => EmptyString
  end.

Fixpoint no_slash (s : string) : bool :=
  match s with
  | EmptyString => true
  | String c t => negb (Ascii.eqb c "/") && no_slash t
  end.

(** Character classes of the textual form of a UUID. *)
Definition is_digit (c : ascii) : bool :=
  let n := nat_of_ascii c in (48 <=? n)%nat && (n <=? 57)%nat.

Definition is_lower_hex (c : ascii) : bool :=
  let n := nat_of_ascii c in is_digit c || ((97 <=? n)%nat && (n <=? 102)%nat).

Definition is_dash (c : ascii) : bool := Ascii.eqb c "-".

(** The class [[0-9a-f-]]. *)
Definition is_hex_or_dash (c : ascii) : bool := is_lower_hex c || is_dash c.

Definition is_version4 (c : ascii) : bool := Ascii.eqb c "4".

Definition is_variant (c : ascii) : bool :=
  Ascii.eqb c "8" || Ascii.eqb c "9" || Ascii.eqb c "a" || Ascii.eqb c "b".

(** A string matches a pattern when it has one character per position and
    each satisfies the test at its position. *)
Fixpoint match_pattern (pat : list (ascii -> bool)) (s : string) : bool :=
  match pat, s with
  | [], EmptyString => true
  | p :: pat', String c t => p c && match_pattern pat' t
  | _, _ => false
  end.

(** The canonical text of a version 4 UUID:
    [xxxxxxxx-xxxx-4xxx-yxxx-xxxxxxxxxxxx] in lower-case hexadecimal, with
    [y] one of [8], [9], [a], [b]. *)
Definition uuid4_pattern : list (ascii -> bool) :=
  repeat is_lower_hex 8 ++ [is_dash] ++
  repeat is_lower_hex 4 ++ [is_dash] ++
  [is_version4] ++ repeat is_lower_hex 3 ++ [is_dash] ++
  [is_variant] ++ repeat is_lower_hex 3 ++ [is_dash] ++
  repeat is_lower_hex 12.

Definition uuid4_text (s : string) : bool := match_pattern uuid4_pattern s.

(** The regular expression [^<p>-[0-9a-f-]{36}$]. *)
Definition matches_prefixed_uuid (p s : string) : bool :=
  startsWith s (p ++ "-") &&
  match_pattern (repeat is_hex_or_dash 36) (slice s (String.length (p ++ "-"))).

(** Stand-ins for the helpers kept in other files, used where a property
    is run on a concrete input: a UUID check that accepts the canonical
    text of a version 4 UUID, a path check that accepts what starts with
    [/] or [.], and a generator that hands out the identifier of a seeded
    application. *)
Definition sample_is_valid_uuid (s : string) : bool := uuid4_text s.

Definition sample_is_valid_path (s : string) : bool :=
  includes ["/"; "."] (char0 s).

Definition sample_uuid : string := "fbbdb72b-ad08-4cb4-86a1-de0f27cf2e1e".

Definition sample_uuid_v4_gen (n : nat) : string := sample_uuid.

Definition sample_entity : value := VEntity (mkEntity "app" 7).

Definition sample_acl (answer : bool) : AclService :=
  mkAcl (fun _ _ _ => Ok (VBool answer))
        (fun _ _ _ => Ok (VError (APIError "subject_does_not_exist" []))).

Definition sample_fs : FsService :=
  mkFs (fun sel =>
          match sel with
          | Some (NodePathSelector p) => Ok (VNode (mkNode p "" None))
          | Some (NodeUIDSelector u) => Ok (VNode (mkNode "" u None))
          | Some (NodeInternalIDSelector _ i) => Ok (VNode (mkNode "" "" (Some i)))
          | None => Throw (TypeError "selector is undefined")
          end).

Definition sample_context (user : option User) : Context :=
  mkContext user (VObj []) (sample_acl true) sample_fs
    (fun _ => Ok (mkEntityService (fun _ => Ok sample_entity))).

Definition only_maxlen (m : Z) : descriptor :=
  mkDescriptor (Some m) None None None None None false None.

Definition only_minlen (m : Z) : descriptor :=
  mkDescriptor None (Some m) None None None None false None.

Definition only_prefix (p : string) : descriptor :=
  mkDescriptor None None None None (Some p) None false None.

Definition only_service (s : string) : descriptor :=
  mkDescriptor None None None None None (Some s) false None.

(* ===================================================================== *)
(** ** The abuse-prevention middleware *)
(* ===================================================================== *)

(** [Context.get('requester')]: whether it is a bot, and what its
    [is_puter_origin()] method answers. *)
Record Requester : Type := mkRequester {
  is_bot : bool;
  is_puter_origin : bool
}.

(** The options of [abuse]; the responder is given by what it returns for
    the request at hand. *)
Record AbuseOptions : Type := mkAbuseOptions {
  no_bots : bool;
  shadow_ban_responder : option (outcome value);
  puter_origin : bool
}.

(** How the middleware ends when it does not throw: it has returned what
    the responder returned, or it has called [next()]. *)
Inductive handled : Type :=
| Responded (answer : value)
| NextCalled.

Definition abuse (options : AbuseOptions) (requester : Requester) : outcome handled :=
  if no_bots options && is_bot requester then
    match shadow_ban_responder options with
    | Some (Ok answer) => Ok (Responded answer)
    | Some (Throw e) => Throw e
    | None => Throw (APIError "forbidden" [])
    end
  else if puter_origin options && negb (is_puter_origin requester) then
    Throw (APIError "forbidden" [])
  else Ok NextCalled.

(* ===================================================================== *)
(** ** The insert helper of the emulator-app migration *)
(* ===================================================================== *)

(** [list.join(sep)] *)
Fixpoint join (sep : string) (l : list string) : string :=
  match l with
  | [] => ""
  | [x] => x
  | x :: rest => x ++ sep ++ join sep rest
  end.

(** [subject[key]] on an object given by its own properties in the order
    [Object.keys] lists them. *)
Fixpoint property (subject : list (string * value)) (key : string) : value :=
  match subject with
  | [] => VUndefined
  | (k, v) :: rest => if String.eqb k key then v else property rest key
  end.

Definition placeholders (keys : list string) : string :=
  join ", " (map (fun _ => "?") keys).

(** [insert(tbl, subject)]: the statement and the parameters it passes to
    [write]. *)
Definition insert (tbl : string) (subject : list (string * value))
    : string * list value :=
  let keys := map fst subject in
  ("INSERT INTO `" ++ tbl ++ "` " ++
   "(" ++ join ", " (map (fun key => key) keys) ++ ") " ++
   "VALUES (" ++ placeholders keys ++ ")",
   map (fun key => property subject key) keys).

(** The number of occurrences of a character in a string. *)
Fixpoint count_char (c : ascii) (s : string) : nat :=
  match s with
  | EmptyString => O
  | String a t => (if Ascii.eqb a c then 1 else 0) + count_char c t
  end.

(* ===================================================================== *)
(** ** More of the runtime: strict equality with a literal, [includes] *)
(* ===================================================================== *)

(** [value === n] for a number literal and [value === s] for a string
    literal. *)
Definition is_number (v : value) (n : Z) : bool :=
  match v with VNum m => Z.eqb m n | _ => false end.

Definition is_string (v : value) (s : string) : bool :=
  match v with VStr t => String.eqb t s | _ => false end.

(** [s.includes(c)] for a one-character [c] *)
Fixpoint includes_char (s : string) (c : ascii) : bool :=
  match s with
  | EmptyString => false
  | String a t => Ascii.eqb a c || includes_char t c
  end.

(** The characters [image-base64.validate] refuses:
    [<], [>], [&], the double quote, the single quote and the backquote. *)
Definition xss_chars : list ascii :=
  ["<"; ">"; "&"; "034"; "'"; "`"]%char.

(** An entity service that knows one entity under its identifier. *)
Definition sample_store (e : Entity) : EntityService :=
  mkEntityService (fun id =>
    match id with
    | VNum i => if Z.eqb i (ent_mysql_id e) then Ok (VEntity e)
                else Throw (JsError "entity not found")
    | _ => Throw (JsError "entity not found")
    end).

Definition sample_store_context (e : Entity) : Context :=
  mkContext None (VObj []) (sample_acl true) sample_fs (fun _ => Ok (sample_store e)).

(** A generator that never repeats: the call number in unary. *)
Fixpoint unary (n : nat) : string :=
  match n with
  | O => EmptyString
  | S n' => String "1" (unary n')
  end.

(** Stand-ins for the two operations of other files that the SQL
    conversions of [puter-node] use: an entry that is already fetched,
    and a text for the values that are not numbers. *)
Definition sample_fetchEntry (n : FSNodeContext) : M FSNodeContext := ret n.

Definition sample_template_text (v : value) : outcome string :=
  match v with
  | VStr s => Ok s
  | VUndefined => Ok "undefined"
  | VSymbol _ => Throw (TypeError "Cannot convert a Symbol value to a string")
  | _ => Ok "[object Object]"
  end.

Definition only_mod (k : Z) : descriptor :=
  mkDescriptor None None None (Some k) None None false None.

(* ===================================================================== *)
(** ** The type table *)
(* ===================================================================== *)

Section Types.

(** Helpers required from other files of the backend: [is_valid_uuid4] and
    [is_valid_uuid] of [helpers], [is_valid_path] of
    [filesystem/validation], and the generator behind [uuid.v4()], given
    as the sequence of identifiers it hands out. *)
Variable is_valid_uuid4 : string -> bool.
Variable is_valid_uuid : string -> bool.
Variable is_valid_path : string -> bool.
Variable uuid_v4_gen : nat -> string.

(** [require('uuid').v4()] *)
Definition uuid_v4 : M string :=
  fun w =>
    let u := uuid_v4_gen (uuid_calls w) in
    (Ok u, mkWorld (trace w ++ [EvUuidV4 u]) (S (uuid_calls w))).

(** *** base *)

Definition base_is_set (v : value) : bool := truthy v.

(** *** string *)

Definition string_adapt (v : value) : M value :=
  if is_undefined v then ret (VStr "")
  else if is_null v then ret (VStr "")
  else if negb (String.eqb (typeof v) "string") then
    throw (OMTypeError "string" (typeof v))
  else ret v.

Definition exceeds (len : Z) (limit : option Z) : bool :=
  match limit with
  | Some m => Z.gtb len m
  | None => false
  end.

Definition string_validate (v : value) (name : string) (d : descriptor) : M value :=
  match v with
  | VStr s =>
      if exceeds (strlen s) (maxlen d) then
        throw (APIError "field_too_long"
                 [("key", PStr name); ("max_length", prop_num (maxlen d))])
      else if exceeds (strlen s) (minlen d) then
        throw (APIError "field_too_short"
                 [("key", PStr name); ("min_length", prop_num (maxlen d))])
      else
        match d_regex d with
        | Some r =>
            if negb (re_test r s) then
              ret (VError (JsError ("string does not match regex " ++ re_source r)))
            else ret (VBool true)
        | None => ret (VBool true)
        end
  | _ => ret (VError (OMTypeError "string" (typeof v)))
  end.

(** *** array *)

(** [value.length % descriptor.mod !== 0]; the remainder by zero is [NaN],
    which differs from [0]. *)
Definition mod_violated (len : Z) (m : option Z) : bool :=
  match m with
  | Some k => if Z.eqb k 0 then true else negb (Z.eqb (Z.rem len k) 0)
  | None => false
  end.

Definition array_validate (v : value) (name : string) (d : descriptor) : M value :=
  match v with
  | VArr l =>
      if exceeds (arrlen l) (maxlen d) then
        throw (APIError "field_too_long"
                 [("key", PStr name); ("max_length", prop_num (maxlen d))])
      else if exceeds (arrlen l) (minlen d) then
        throw (APIError "field_too_short"
                 [("key", PStr name); ("min_length", prop_num (maxlen d))])
      else if mod_violated (arrlen l) (d_mod d) then
        throw (APIError "field_invalid"
                 [("key", PStr name); ("mod", prop_num (d_mod d))])
      else ret (VBool true)
  | _ => ret (VError (OMTypeError "array" (typeof v)))
  end.

(** *** puter-uuid *)

Definition puter_uuid_validate (v : value) (d : descriptor) : M value :=
  let p := prefix_dash d in
  match v with
  | VStr s =>
      if negb (startsWith s p) then
        ret (VError (JsError ("UUID does not start with prefix " ++ p)))
      else ret (VBool (is_valid_uuid (slice s (String.length p))))
  | _ => throw (TypeError "value.startsWith is not a function")
  end.

Definition puter_uuid_factory (d : descriptor) : M value :=
  let p := prefix_dash d in
  uuid <- uuid_v4 ;;
  ret (VStr (p ++ uuid)).

(** *** reference *)

Definition reference_sql_reference (v : value) (d : descriptor) : M value :=
  match service_name d with
  | None => ret v
  | Some _ =>
      if negb (truthy v) then ret VNull
      else
        match v with
        | VEntity e => ret (VNum (ent_mysql_id e))
        | VObj fields =>
            match find (fun kv => String.eqb (fst kv) "id") fields with
            | Some kv => ret (snd kv)
            | None => ret VUndefined
            end
        | _ => ret VUndefined
        end
  end.

Definition reference_sql_dereference (ctx : Context) (v : value) (d : descriptor) : M value :=
  match service_name d with
  | None => ret v
  | Some name =>
      if negb (truthy v) then ret VNull
      else
        svc <- lift (svc_entity ctx name) ;;
        call_read name svc v
  end.

Definition reference_adapt (ctx : Context) (v : value) (d : descriptor) : M value :=
  match service_name d with
  | None => ret v
  | Some name =>
      if negb (truthy v) then ret VNull
      else if instanceof_Entity v then ret v
      else
        svc <- lift (svc_entity ctx name) ;;
        console_log [VStr "VALUE BEING READ"; v] ;;;
        call_read name svc v
  end.

(** *** puter-node *)

Definition puter_node_is_set (v : value) : bool := truthy v || is_null v.

(** The part of [adapt] that picks the selector for a string: [None] is
    the [selector] variable left [undefined]. *)
Definition puter_node_selector (ctx : Context) (s name : string) : M (option selector) :=
  if negb (includes ["/"; "."; "~"] (char0 s)) then
    if is_valid_uuid4 s then ret (Some (NodeUIDSelector s)) else ret None
  else
    path <- (if startsWith s "~" then
               match ctx_user ctx with
               | None => throw (JsError "Cannot use ~ without a user")
               | Some user => ret ("/" ++ username user ++ slice s 1)
               end
             else ret s) ;;
    if negb (is_valid_path path) then
      throw (APIError "field_invalid"
               [("key", PStr name); ("expected", PStr "unix-style path or UUID")])
    else ret (Some (NodePathSelector path)).

Definition puter_node_adapt (ctx : Context) (v : value) (name : string) : M value :=
  if is_null v then ret VNull
  else if instanceof_FSNodeContext v then ret v
  else
    match v with
    | VStr s =>
        sel <- puter_node_selector ctx s name ;;
        call_fs_node ctx sel
    | _ => ret VUndefined
    end.

(** [await value.get('path')] *)
Definition get_path (v : value) : M string :=
  match v with
  | VNode n => ret (node_path n)
  | _ => throw (TypeError "value.get is not a function")
  end.

Definition puter_node_validate (ctx : Context) (v : value) (name : string)
    (d : descriptor) : M value :=
  if is_null v then ret VUndefined
  else
    let actor := ctx_actor ctx in
    let permission := match fs_permission d with Some p => p | None => "see" end in
    console_log [VStr "actor??"; actor; v; VStr permission] ;;;
    path <- get_path v ;;
    if String.eqb path "/" then ret (VError (APIError "forbidden" []))
    else
      allowed <- call_acl_check ctx actor v permission ;;
      if negb (truthy allowed) then call_acl_safe_error ctx actor v permission
      else ret VUndefined.

(** *** flag *)

Definition flag_adapt (value0 : value) : M value :=
  if is_undefined value0 then ret (VBool false)
  else
    let value1 := if is_number value0 0 then VBool false else value0 in
    let value2 := if is_number value1 1 then VBool true else value1 in
    let value3 := if is_string value2 "0" then VBool false else value2 in
    let value4 := if is_string value3 "1" then VBool true else value3 in
    if negb (String.eqb (typeof value4) "boolean") then
      throw (OMTypeError "boolean" (typeof value4))
    else ret value4.

(** *** image-base64 *)

Definition image_base64_validate (v : value) : M value :=
  match v with
  | VStr s =>
      if negb (startsWith s "data:image/") then
        ret (VError (JsError "image must be base64 encoded"))
      else if existsb (includes_char s) xss_chars then
        ret (VError (JsError "icon is not an image"))
      else ret VUndefined
  | _ => throw (TypeError "value.startsWith is not a function")
  end.

(** *** puter-node: the SQL conversions *)

(** [value.fetchEntry()] of [FSNodeContext], which lives in another file:
    any computation that ends with the node as it is once fetched. *)
Variable fetchEntry : FSNodeContext -> M FSNodeContext.

(** The text a template literal gives for [${value}]; it can throw (on a
    symbol). *)
Variable template_text : value -> outcome string.

Definition puter_node_sql_reference (v : value) : M value :=
  if is_null v then ret VNull
  else
    match v with
    | VNode n =>
        fetched <- fetchEntry n ;;
        ret (match node_mysql_id fetched with
             | Some id => VNum id
             | None => VNull
             end)
    | _ => throw (JsError "Cannot reference non-FSNodeContext")
    end.

(** [sql_dereference] hands a number on to [NodeInternalIDSelector] as it
    is.  The selectors here hold an integer, so the function is given
    where its argument is [null], an integer or not a number; on [NaN]
    (a number that no selector here can hold) it is left undefined. *)
Definition puter_node_sql_dereference (ctx : Context) (v : value) : option (M value) :=
  if is_null v then Some (ret VNull)
  else
    match v with
    | VNum id => Some (call_fs_node ctx (Some (NodeInternalIDSelector "mysql" id)))
    | VNaN => None
    | _ =>
        Some (text <- lift (template_text v) ;;
              throw (JsError ("Cannot dereference non-number: " ++ text)))
    end.


(* ===================================================================== *)
(** ** Strings *)
(* ===================================================================== *)

Lemma startsWith_cons (a b : ascii) (s p : string) :
  startsWith (String b s) (String a p) = Ascii.eqb a b && startsWith s p.
Proof. reflexivity. Qed.

Lemma startsWith_app (p u : string) : startsWith (p ++ u) p = true.
Proof.
  induction p as [|c p IH]; simpl.
  - reflexivity.
  - rewrite Ascii.eqb_refl. exact IH.
Qed.

Lemma slice_app (p u : string) : slice (p ++ u) (String.length p) = u.
Proof.
  induction p as [|c p IH]; simpl.
  - reflexivity.
  - exact IH.
Qed.

Lemma until_slash_app (u rest : string) :
  no_slash u = true ->
  rest = "" \/ startsWith rest "/" = true ->
  until_slash (u ++ rest) = u.
Proof.
  intros Hu Hrest. induction u as [|c u IH].
  - change ("" ++ rest) with rest.
    destruct Hrest as [-> | Hrest]; [reflexivity|].
    destruct rest as [|c t]; [reflexivity|].
    rewrite startsWith_cons in Hrest.
    apply andb_true_iff in Hrest. destruct Hrest as [Hc _].
    apply Ascii.eqb_eq in Hc. subst c. reflexivity.
  - cbn [no_slash] in Hu.
    apply andb_true_iff in Hu. destruct Hu as [Hc Hu].
    apply negb_true_iff in Hc.
    cbn [append until_slash]. rewrite Hc. now rewrite IH.
Qed.

Lemma first_segment_home (u rest : string) :
  no_slash u = true ->
  rest = "" \/ startsWith rest "/" = true ->
  first_segment ("/" ++ u ++ rest) = u.
Proof.
  intros Hu Hrest. simpl. now apply until_slash_app.
Qed.

Lemma match_pattern_class (cls : ascii -> bool) (pat : list (ascii -> bool)) :
  Forall (fun p => forall c, p c = true -> cls c = true) pat ->
  forall s, match_pattern pat s = true ->
            match_pattern (repeat cls (List.length pat)) s = true.
Proof.
  induction 1 as [|p pat Hp _ IH]; intros s Hs.
  - exact Hs.
  - destruct s as [|c t]; simpl in *; [discriminate|].
    apply andb_true_iff in Hs. destruct Hs as [Hc Ht].
    rewrite (Hp c Hc). simpl. now apply IH.
Qed.

Lemma uuid4_text_class (u : string) :
  uuid4_text u = true -> match_pattern (repeat is_hex_or_dash 36) u = true.
Proof.
  intros Hu.
  apply (match_pattern_class is_hex_or_dash uuid4_pattern); [|exact Hu].
  assert (Hhex : forall c, is_lower_hex c = true -> is_hex_or_dash c = true).
  { intros c Hc. unfold is_hex_or_dash. now rewrite Hc. }
  assert (Hdash : forall c, is_dash c = true -> is_hex_or_dash c = true).
  { intros c Hc. unfold is_hex_or_dash. rewrite Hc. apply orb_true_r. }
  assert (Hver : forall c, is_version4 c = true -> is_hex_or_dash c = true).
  { intros c Hc. apply Ascii.eqb_eq in Hc. subst c. reflexivity. }
  assert (Hvar : forall c, is_variant c = true -> is_hex_or_dash c = true).
  { intros c Hc. unfold is_variant in Hc.
    repeat (apply orb_true_iff in Hc; destruct Hc as [Hc | Hc]);
      apply Ascii.eqb_eq in Hc; subst c; reflexivity. }
  unfold uuid4_pattern. simpl.
  repeat (apply Forall_cons; [first [exact Hhex | exact Hdash | exact Hver | exact Hvar]|]).
  apply Forall_nil.
Qed.

(* ===================================================================== *)
(** ** string and array: adapt and the length limits *)
(* ===================================================================== *)

(** C5. [string.adapt] maps [undefined] and [null] to the empty string,
    returns every string as it is, and on every other value throws an
    [OMTypeError] whose expected type is [string] and whose actual type is
    [typeof value]; its message reads "expected string, got <typeof>".
    None of the four cases touches the world. *)
Theorem string_adapt_cases :
  string_adapt VUndefined = ret (VStr "") /\
  string_adapt VNull = ret (VStr "") /\
  (forall s, string_adapt (VStr s) = ret (VStr s)) /\
  (forall v, v <> VUndefined -> v <> VNull -> typeof v <> "string" ->
     string_adapt v = throw (OMTypeError "string" (typeof v)) /\
     error_message (OMTypeError "string" (typeof v))
       = "expected string, got " ++ typeof v).
Proof.
  split; [reflexivity|]. split; [reflexivity|]. split; [reflexivity|].
  intros v Hundef Hnull Hstr.
  destruct v; try (split; reflexivity); contradiction.
Qed.

Lemma exceeds_gt (len m : Z) : (len > m)%Z -> exceeds len (Some m) = true.
Proof.
  intros H. unfold exceeds. apply Z.gtb_lt. lia.
Qed.

Lemma exceeds_le (len m : Z) : (len <= m)%Z -> exceeds len (Some m) = false.
Proof.
  intros H. unfold exceeds. rewrite Z.gtb_ltb. apply Z.ltb_ge. exact H.
Qed.

(** C4. With [maxlen] configured, a string (for [string.validate]) or an
    array (for [array.validate]) longer than [maxlen] makes validate throw
    [field_too_long] with the field's key and [max_length] set to the
    configured limit; [array.validate([1,2,3,4], {maxlen: 3})] is the case
    with limit 3. *)
Theorem validate_maxlen_exceeded_throws :
  (forall s name d m,
     maxlen d = Some m -> (strlen s > m)%Z ->
     string_validate (VStr s) name d
       = throw (APIError "field_too_long"
                  [("key", PStr name); ("max_length", PNum m)])) /\
  (forall l name d m,
     maxlen d = Some m -> (arrlen l > m)%Z ->
     array_validate (VArr l) name d
       = throw (APIError "field_too_long"
                  [("key", PStr name); ("max_length", PNum m)])) /\
  (forall name,
     array_validate (VArr [VNum 1; VNum 2; VNum 3; VNum 4]) name (only_maxlen 3)
       = throw (APIError "field_too_long"
                  [("key", PStr name); ("max_length", PNum 3)])).
Proof.
  split; [|split].
  - intros s name d m Hm Hlen. unfold string_validate.
    rewrite Hm, (exceeds_gt _ _ Hlen). reflexivity.
  - intros l name d m Hm Hlen. unfold array_validate.
    rewrite Hm, (exceeds_gt _ _ Hlen). reflexivity.
  - intros name. reflexivity.
Qed.

(** What the minimum-length test of [string.validate] does: with [minlen]
    alone configured, a string of at most [minlen] characters is valid, and
    a longer one is rejected as too short, the reported [min_length] being
    the absent [maxlen]. *)
Lemma string_validate_minlen_only (s name : string) (m : Z) :
  string_validate (VStr s) name (only_minlen m)
    = if Z.gtb (strlen s) m
      then throw (APIError "field_too_short"
                    [("key", PStr name); ("min_length", PUndefined)])
      else ret (VBool true).
Proof.
  unfold string_validate. simpl. destruct (Z.gtb (strlen s) m); reflexivity.
Qed.

Lemma array_validate_minlen_only (l : list value) (name : string) (m : Z) :
  array_validate (VArr l) name (only_minlen m)
    = if Z.gtb (arrlen l) m
      then throw (APIError "field_too_short"
                    [("key", PStr name); ("min_length", PUndefined)])
      else ret (VBool true).
Proof.
  unfold array_validate. simpl. destruct (Z.gtb (arrlen l) m); reflexivity.
Qed.

(** C1. The code at the inputs where it departs from the claim: with
    [minlen: 3], the two-character string ["ab"] and the one-element array
    [[1]] are accepted, although they are shorter than the minimum, while
    ["abcd"] and [[1,2,3,4]] are rejected as too short with an undefined
    [min_length]. *)
Theorem minlen_short_value_accepted :
  string_validate (VStr "ab") "title" (only_minlen 3) = ret (VBool true) /\
  array_validate (VArr [VNum 1]) "tags" (only_minlen 3) = ret (VBool true) /\
  string_validate (VStr "abcd") "title" (only_minlen 3)
    = throw (APIError "field_too_short"
               [("key", PStr "title"); ("min_length", PUndefined)]) /\
  array_validate (VArr [VNum 1; VNum 2; VNum 3; VNum 4]) "tags" (only_minlen 3)
    = throw (APIError "field_too_short"
               [("key", PStr "tags"); ("min_length", PUndefined)]).
Proof.
  repeat split; reflexivity.
Qed.

(* ===================================================================== *)
(** ** puter-uuid *)
(* ===================================================================== *)

Lemma prefix_dash_some (d : descriptor) (p : string) :
  prefix d = Some p -> prefix_dash d = p ++ "-".
Proof.
  intros H. unfold prefix_dash. now rewrite H.
Qed.

(** The verdict of [puter-uuid.validate] on a string that carries the
    configured prefix is the verdict of [is_valid_uuid] on what follows the
    prefix and its hyphen. *)
Lemma puter_uuid_validate_prefixed (d : descriptor) (p u : string) :
  prefix d = Some p ->
  puter_uuid_validate (VStr ((p ++ "-") ++ u)) d = ret (VBool (is_valid_uuid u)).
Proof.
  intros Hp. unfold puter_uuid_validate.
  rewrite (prefix_dash_some d p Hp), startsWith_app, slice_app. reflexivity.
Qed.

(** C8. With prefix ["app"] configured, and [is_valid_uuid] accepting the
    canonical text of a version 4 UUID: [puter-uuid.validate] returns
    [true] on ["app-" ++ u] for every such text [u]; on a string that does
    not start with ["app-"] it returns, and does not throw, the error
    "UUID does not start with prefix app-"; and [puter-uuid.factory]
    returns ["app-"] followed by the identifier [uuid.v4()] has just
    generated, which matches [^app-[0-9a-f-]{36}$] when that identifier is
    the canonical text of a version 4 UUID. *)
Theorem puter_uuid_prefix_app (d : descriptor) :
  prefix d = Some "app" ->
  (forall x, uuid4_text x = true -> is_valid_uuid x = true) ->
  (forall u w, uuid4_text u = true ->
     puter_uuid_validate (VStr ("app-" ++ u)) d w = (Ok (VBool true), w)) /\
  (forall s w, startsWith s "app-" = false ->
     puter_uuid_validate (VStr s) d w
       = (Ok (VError (JsError "UUID does not start with prefix app-")), w)) /\
  (forall w, uuid4_text (uuid_v4_gen (uuid_calls w)) = true ->
     let u := uuid_v4_gen (uuid_calls w) in
     puter_uuid_factory d w
       = (Ok (VStr ("app-" ++ u)),
          mkWorld (trace w ++ [EvUuidV4 u]) (S (uuid_calls w))) /\
     matches_prefixed_uuid "app" ("app-" ++ u) = true).
Proof.
  intros Hp Hvalid. split; [|split].
  - intros u w Hu.
    change ("app-" ++ u) with (("app" ++ "-") ++ u).
    rewrite (puter_uuid_validate_prefixed d "app" u Hp), (Hvalid u Hu).
    reflexivity.
  - intros s w Hs. unfold puter_uuid_validate.
    rewrite (prefix_dash_some d "app" Hp).
    change ("app" ++ "-") with "app-". rewrite Hs. reflexivity.
  - intros w Hgen u. split.
    + unfold puter_uuid_factory, bind, uuid_v4, ret.
      rewrite (prefix_dash_some d "app" Hp). reflexivity.
    + unfold matches_prefixed_uuid.
      change ("app-" ++ u) with (("app" ++ "-") ++ u).
      rewrite startsWith_app, slice_app.
      exact (uuid4_text_class u Hgen).
Qed.

(* ===================================================================== *)
(** ** reference *)
(* ===================================================================== *)

(** C9, as amended.  Without a target service [reference.adapt] returns
    every value unchanged.  With one configured: a falsy value gives
    [null] and nothing is read; an [Entity] is returned unchanged and
    nothing is read; every other value is logged and then handed to the
    [read] operation of the target service, whose answer is the result. *)
Theorem reference_adapt_cases (ctx : Context) (v : value) (d : descriptor) (w : world) :
  (service_name d = None -> reference_adapt ctx v d w = (Ok v, w)) /\
  (forall name, service_name d = Some name ->
     (truthy v = false -> reference_adapt ctx v d w = (Ok VNull, w)) /\
     (instanceof_Entity v = true -> reference_adapt ctx v d w = (Ok v, w)) /\
     (forall svc,
        truthy v = true -> instanceof_Entity v = false ->
        svc_entity ctx name = Ok svc ->
        reference_adapt ctx v d w
          = (read svc v,
             mkWorld (trace w ++ [EvLog [VStr "VALUE BEING READ"; v]]
                              ++ [EvRead name v])
                     (uuid_calls w)))).
Proof.
  unfold reference_adapt. split.
  - intros Hd. now rewrite Hd.
  - intros name Hd. rewrite Hd. split; [|split].
    + intros Hv. now rewrite Hv.
    + intros He. destruct v; try discriminate. reflexivity.
    + intros svc Hv He Hsvc. rewrite Hv, He. simpl.
      unfold bind, lift, console_log, call_read, emit, bind, lift.
      rewrite Hsvc. simpl. rewrite <- app_assoc. reflexivity.
Qed.

(** X29. With no target service the two SQL conversions of [reference]
    are the identity, so a value survives being stored and loaded. *)
Lemma reference_roundtrip_without_service (ctx : Context) (v : value) (d : descriptor) :
  service_name d = None ->
  (stored <- reference_sql_reference v d ;; reference_sql_dereference ctx stored d)
    = ret v.
Proof.
  intros Hd. unfold reference_sql_reference, reference_sql_dereference.
  rewrite Hd. reflexivity.
Qed.

(* ===================================================================== *)
(** ** puter-node *)
(* ===================================================================== *)

(** C2. On a node whose path is ["/"], [puter-node.validate] returns the
    [forbidden] error whatever the access-control service of the context
    is; the service is not called, the only event is the log line; and two
    contexts that differ in nothing but their access-control service end
    with the same result and the same trace. *)
Theorem puter_node_validate_root_forbidden
    (ctx : Context) (n : FSNodeContext) (name : string) (d : descriptor) (w : world) :
  node_path n = "/" ->
  (forall acl,
     result_of (puter_node_validate (with_acl ctx acl) (VNode n) name d) w
       = Ok (VError (APIError "forbidden" [])) /\
     exists line,
       events_of (puter_node_validate (with_acl ctx acl) (VNode n) name d) w
         = (trace w ++ [EvLog line])%list) /\
  (forall acl1 acl2,
     puter_node_validate (with_acl ctx acl1) (VNode n) name d w
       = puter_node_validate (with_acl ctx acl2) (VNode n) name d w).
Proof.
  intros Hpath.
  assert (Hrun : forall acl,
             puter_node_validate (with_acl ctx acl) (VNode n) name d w
             = (Ok (VError (APIError "forbidden" [])),
                mkWorld (trace w ++
                           [EvLog [VStr "actor??"; ctx_actor ctx; VNode n;
                                   VStr match fs_permission d with
                                        | Some p => p
                                        | None => "see"
                                        end]])
                        (uuid_calls w))).
  { intros acl. unfold puter_node_validate. simpl.
    unfold bind, console_log, emit, get_path, ret. simpl.
    rewrite Hpath. reflexivity. }
  split.
  - intros acl. unfold result_of, events_of. rewrite Hrun. simpl.
    split; [reflexivity | eexists; reflexivity].
  - intros acl1 acl2. now rewrite !Hrun.
Qed.

(** C10. A value that is not [null], not an [FSNodeContext] and not a
    string is adapted to [undefined]: nothing is thrown and the world is
    left as it was, so the filesystem service is not consulted. *)
Theorem puter_node_adapt_other_values_undefined
    (ctx : Context) (v : value) (name : string) (w : world) :
  v <> VNull -> instanceof_FSNodeContext v = false -> typeof v <> "string" ->
  puter_node_adapt ctx v name w = (Ok VUndefined, w).
Proof.
  intros Hnull Hnode Hstr.
  destruct v; try reflexivity; try contradiction; discriminate.
Qed.

(** X30. A string that starts with [/] or [.] and that [is_valid_path]
    refuses is rejected with [field_invalid], carrying the field's key,
    before the filesystem service is called. *)
Lemma puter_node_adapt_invalid_path_throws
    (ctx : Context) (s name : string) (w : world) :
  includes ["/"; "."] (char0 s) = true ->
  is_valid_path s = false ->
  puter_node_adapt ctx (VStr s) name w
    = (Throw (APIError "field_invalid"
                [("key", PStr name); ("expected", PStr "unix-style path or UUID")]),
       w).
Proof.
  intros Hhead Hpath. destruct s as [|c t]; [discriminate|].
  assert (Hc : c = "/"%char \/ c = "."%char).
  { cbn [includes char0 existsb] in Hhead.
    rewrite orb_false_r in Hhead. apply orb_true_iff in Hhead.
    destruct Hhead as [H | H]; apply String.eqb_eq in H;
      injection H as ->; auto. }
  destruct Hc as [-> | ->];
    unfold puter_node_adapt, puter_node_selector; simpl;
    unfold bind, ret; simpl; rewrite Hpath; reflexivity.
Qed.

(** C3. The code at the inputs where it departs from the claim: a string
    that starts with none of [/], [.], [~] and is not a version 4 UUID is
    not rejected; [svc_fs.node] is called with an undefined selector and
    its answer is the result of [adapt]. *)
Theorem puter_node_adapt_unrecognised_string_looked_up
    (ctx : Context) (s name : string) (w : world) :
  includes ["/"; "."; "~"] (char0 s) = false ->
  is_valid_uuid4 s = false ->
  puter_node_adapt ctx (VStr s) name w
    = (node (svc_filesystem ctx) None,
       mkWorld (trace w ++ [EvFsNode None]) (uuid_calls w)).
Proof.
  intros Hhead Huuid.
  unfold puter_node_adapt, puter_node_selector. simpl.
  rewrite Hhead, Huuid. reflexivity.
Qed.

(** C7, as amended.  For an input ["~" ++ rest] and a user in context,
    [adapt] replaces the [~] by [/] and the username: when [is_valid_path]
    accepts the resulting path the node is looked up through the by-path
    selector on that path, otherwise [field_invalid] is thrown and nothing
    is looked up; the first segment of the path is the username when
    [rest] is empty or starts with [/] and the username holds no [/].
    With no user in context the call throws and nothing is looked up. *)
Theorem puter_node_adapt_home_expansion
    (ctx : Context) (rest name : string) (w : world) :
  (forall user, ctx_user ctx = Some user ->
     let path := "/" ++ username user ++ rest in
     (is_valid_path path = true ->
        puter_node_adapt ctx (VStr ("~" ++ rest)) name w
          = (node (svc_filesystem ctx) (Some (NodePathSelector path)),
             mkWorld (trace w ++ [EvFsNode (Some (NodePathSelector path))])
                     (uuid_calls w))) /\
     (is_valid_path path = false ->
        puter_node_adapt ctx (VStr ("~" ++ rest)) name w
          = (Throw (APIError "field_invalid"
                      [("key", PStr name);
                       ("expected", PStr "unix-style path or UUID")]),
             w)) /\
     (no_slash (username user) = true ->
      rest = "" \/ startsWith rest "/" = true ->
      first_segment path = username user)) /\
  (ctx_user ctx = None ->
     puter_node_adapt ctx (VStr ("~" ++ rest)) name w
       = (Throw (JsError "Cannot use ~ without a user"), w)).
Proof.
  split.
  - intros user Huser path. split; [|split].
    + intros Hpath. subst path. simpl in Hpath.
      unfold puter_node_adapt, puter_node_selector. simpl.
      rewrite Huser. unfold bind, ret. simpl. rewrite Hpath.
      reflexivity.
    + intros Hpath. subst path. simpl in Hpath.
      unfold puter_node_adapt, puter_node_selector. simpl.
      rewrite Huser. unfold bind, ret. simpl. rewrite Hpath.
      reflexivity.
    + intros Hu Hrest. now apply first_segment_home.
  - intros Huser. unfold puter_node_adapt, puter_node_selector. simpl.
    rewrite Huser. reflexivity.
Qed.

(* ===================================================================== *)
(** ** flag *)
(* ===================================================================== *)

(** [flag.adapt] by the shape of its argument. *)
Lemma flag_adapt_by_shape (v : value) :
  flag_adapt v =
    match v with
    | VUndefined => ret (VBool false)
    | VBool b => ret (VBool b)
    | VNum n =>
        if Z.eqb n 0 then ret (VBool false)
        else if Z.eqb n 1 then ret (VBool true)
        else throw (OMTypeError "boolean" "number")
    | VStr s =>
        if String.eqb s "0" then ret (VBool false)
        else if String.eqb s "1" then ret (VBool true)
        else throw (OMTypeError "boolean" "string")
    | _ => throw (OMTypeError "boolean" (typeof v))
    end.
Proof.
  destruct v; try reflexivity.
  - unfold flag_adapt. cbn [is_undefined is_number].
    destruct (Z.eqb_spec n 0) as [-> | H0]; [reflexivity|].
    cbn [is_number]. destruct (Z.eqb n 1); reflexivity.
  - unfold flag_adapt. cbn [is_undefined is_number is_string].
    destruct (String.eqb_spec s "0") as [-> | H0]; [reflexivity|].
    cbn [is_string]. destruct (String.eqb s "1"); reflexivity.
Qed.

(** X1. [flag.adapt] returns [true] exactly on [true], [1] and ['1'],
    returns [false] exactly on [undefined], [false], [0] and ['0'], and on
    every other value throws an [OMTypeError] that expects a boolean and
    reports [typeof value]. *)
Theorem flag_adapt_truth_table (v : value) (w : world) :
  (flag_adapt v w = (Ok (VBool true), w)
     <-> v = VBool true \/ v = VNum 1 \/ v = VStr "1") /\
  (flag_adapt v w = (Ok (VBool false), w)
     <-> v = VUndefined \/ v = VBool false \/ v = VNum 0 \/ v = VStr "0") /\
  ((forall b, flag_adapt v w <> (Ok (VBool b), w)) ->
     flag_adapt v w = (Throw (OMTypeError "boolean" (typeof v)), w)).
Proof.
  rewrite flag_adapt_by_shape.
  destruct v as [ | |b|n| | |s| | | | | | | ];
    try (split; [|split];
         [ split; [discriminate | intros [H|[H|H]]; discriminate]
         | split; [discriminate | intros [H|[H|[H|H]]]; discriminate]
         | reflexivity ]).
  - split; [|split].
    + split; [discriminate | intros [H|[H|H]]; discriminate].
    + split; [intros _; now left | reflexivity].
    + intros H. now elim (H false).
  - split; [|split].
    + split.
      * intros H. left. unfold ret in H. congruence.
      * intros [H|[H|H]]; try discriminate. now injection H as ->.
    + split.
      * intros H. right. left. unfold ret in H. congruence.
      * intros [H|[H|[H|H]]]; try discriminate. now injection H as ->.
    + intros H. now elim (H b).
  - destruct (Z.eqb_spec n 0) as [-> | H0];
      [|destruct (Z.eqb_spec n 1) as [-> | H1]].
    + split; [|split].
      * split; [discriminate | intros [H|[H|H]]; discriminate].
      * split; [intros _; now (right; right; left) | reflexivity].
      * intros H. now elim (H false).
    + split; [|split].
      * split; [intros _; now (right; left) | reflexivity].
      * split; [discriminate | intros [H|[H|[H|H]]]; discriminate].
      * intros H. now elim (H true).
    + split; [|split].
      * split; [discriminate | intros [H|[H|H]]; try discriminate; congruence].
      * split; [discriminate | intros [H|[H|[H|H]]]; try discriminate; congruence].
      * reflexivity.
  - destruct (String.eqb_spec s "0") as [-> | H0];
      [|destruct (String.eqb_spec s "1") as [-> | H1]].
    + split; [|split].
      * split; [discriminate | intros [H|[H|H]]; discriminate].
      * split; [intros _; now (right; right; right) | reflexivity].
      * intros H. now elim (H false).
    + split; [|split].
      * split; [intros _; now (right; right) | reflexivity].
      * split; [discriminate | intros [H|[H|[H|H]]]; discriminate].
      * intros H. now elim (H true).
    + split; [|split].
      * split; [discriminate | intros [H|[H|H]]; try discriminate; congruence].
      * split; [discriminate | intros [H|[H|[H|H]]]; try discriminate; congruence].
      * reflexivity.
Qed.

(** X2. What [flag.adapt] returns is a boolean, the world is untouched,
    and adapting the result again gives it back. *)
Theorem flag_adapt_idempotent (v x : value) (w w' : world) :
  flag_adapt v w = (Ok x, w') ->
  w' = w /\ (exists b, x = VBool b) /\ flag_adapt x w' = (Ok x, w').
Proof.
  rewrite flag_adapt_by_shape. intros H.
  assert (Hx : w' = w /\ exists b, x = VBool b).
  { destruct v; try discriminate.
    - injection H as <- <-. eauto.
    - injection H as <- <-. eauto.
    - destruct (Z.eqb n 0); [injection H as <- <-; eauto|].
      destruct (Z.eqb n 1); [injection H as <- <-; eauto | discriminate].
    - destruct (String.eqb s "0"); [injection H as <- <-; eauto|].
      destruct (String.eqb s "1"); [injection H as <- <-; eauto | discriminate]. }
  destruct Hx as [-> [b ->]]. split; [reflexivity|]. split; [eauto|].
  reflexivity.
Qed.

(* ===================================================================== *)
(** ** string and array: what is accepted and what is thrown *)
(* ===================================================================== *)

(** X3. What [string.adapt] returns is a string, the world is untouched,
    adapting it again gives it back, and [string.validate] never answers
    it with a type mismatch. *)
Theorem string_adapt_then_validate (v x : value) (w w' : world) :
  string_adapt v w = (Ok x, w') ->
  w' = w /\
  (exists s, x = VStr s) /\
  string_adapt x w' = (Ok x, w') /\
  (forall name d expected got,
     string_validate x name d w'
       <> (Ok (VError (OMTypeError expected got)), w')).
Proof.
  intros H.
  assert (Hx : w' = w /\ exists s, x = VStr s).
  { destruct v; try discriminate; injection H as <- <-; eauto. }
  destruct Hx as [-> [s ->]].
  split; [reflexivity|]. split; [eauto|]. split; [reflexivity|].
  intros name d expected got. unfold string_validate.
  destruct (exceeds (strlen s) (maxlen d)); [discriminate|].
  destruct (exceeds (strlen s) (minlen d)); [discriminate|].
  destruct (d_regex d) as [r|]; [|discriminate].
  destruct (re_test r s); discriminate.
Qed.

(** X4. [string.validate] throws on strings only, and only for their
    length: the error is [field_too_long] or [field_too_short], it carries
    the field's key, and the limit it carries is in both cases
    [descriptor.maxlen].  Nothing is thrown on a value that is not a
    string, and the world is never touched. *)
Theorem string_validate_thrown (v : value) (name : string) (d : descriptor)
    (w w' : world) (e : error) :
  string_validate v name d w = (Throw e, w') ->
  w' = w /\
  exists s, v = VStr s /\
    ((exceeds (strlen s) (maxlen d) = true /\
      e = APIError "field_too_long"
            [("key", PStr name); ("max_length", prop_num (maxlen d))]) \/
     (exceeds (strlen s) (maxlen d) = false /\
      exceeds (strlen s) (minlen d) = true /\
      e = APIError "field_too_short"
            [("key", PStr name); ("min_length", prop_num (maxlen d))])).
Proof.
  intros H. destruct v; try discriminate.
  unfold string_validate in H.
  destruct (exceeds (strlen s) (maxlen d)) eqn:Hmax.
  - injection H as <- <-. split; [reflexivity|]. exists s. split; [reflexivity|].
    left. split; [exact Hmax | reflexivity].
  - destruct (exceeds (strlen s) (minlen d)) eqn:Hmin.
    + injection H as <- <-. split; [reflexivity|]. exists s.
      split; [reflexivity|]. right.
      split; [exact Hmax|]. split; [exact Hmin | reflexivity].
    + destruct (d_regex d) as [r|]; [|discriminate].
      destruct (re_test r s); discriminate.
Qed.

(** X5. The strings [string.validate] answers with [true] are those that
    exceed neither [maxlen] nor [minlen] and match the regex, each limit
    counting only when configured. *)
Theorem string_validate_accepts_iff (s name : string) (d : descriptor) (w : world) :
  string_validate (VStr s) name d w = (Ok (VBool true), w) <->
  exceeds (strlen s) (maxlen d) = false /\
  exceeds (strlen s) (minlen d) = false /\
  (forall r, d_regex d = Some r -> re_test r s = true).
Proof.
  unfold string_validate.
  destruct (exceeds (strlen s) (maxlen d)).
  { split; [discriminate | intros [H _]; discriminate]. }
  destruct (exceeds (strlen s) (minlen d)).
  { split; [discriminate | intros [_ [H _]]; discriminate]. }
  destruct (d_regex d) as [r|].
  - destruct (re_test r s) eqn:Hr.
    + split; [|reflexivity]. intros _. repeat split. intros r' Hr'.
      injection Hr' as <-. exact Hr.
    + split; [discriminate|]. intros [_ [_ H]].
      specialize (H r eq_refl). congruence.
  - split; [|reflexivity]. intros _. repeat split. discriminate.
Qed.

Lemma mod_violated_divide (len k : Z) :
  mod_violated len (Some k) = false <-> k <> 0%Z /\ (k | len)%Z.
Proof.
  unfold mod_violated. destruct (Z.eqb_spec k 0) as [-> | Hk].
  - split; [discriminate | intros [H _]; now elim H].
  - rewrite negb_false_iff, Z.eqb_eq, (Z.rem_divide len k Hk). tauto.
Qed.

(** X6. With [mod] configured and the length limits respected,
    [array.validate] answers [true] exactly when the modulus is not zero
    and divides the length of the array, the empty array included; in
    every other case, modulus zero included, it throws [field_invalid]
    with the field's key and the modulus. *)
Theorem array_validate_mod (l : list value) (name : string) (d : descriptor)
    (k : Z) (w : world) :
  d_mod d = Some k ->
  exceeds (arrlen l) (maxlen d) = false ->
  exceeds (arrlen l) (minlen d) = false ->
  (k <> 0%Z /\ (k | arrlen l)%Z ->
     array_validate (VArr l) name d w = (Ok (VBool true), w)) /\
  (~ (k <> 0%Z /\ (k | arrlen l)%Z) ->
     array_validate (VArr l) name d w
       = (Throw (APIError "field_invalid" [("key", PStr name); ("mod", PNum k)]), w)).
Proof.
  intros Hk Hmax Hmin. unfold array_validate. rewrite Hmax, Hmin, Hk.
  destruct (mod_violated (arrlen l) (Some k)) eqn:Hv.
  - split; [|reflexivity]. intros H.
    apply mod_violated_divide in H. congruence.
  - split; [reflexivity|]. intros H.
    now elim H; apply mod_violated_divide.
Qed.

(** X7. [array.validate] throws on arrays only, always an [APIError]
    carrying the field's key, of kind [field_too_long], [field_too_short]
    or [field_invalid]; a value that is not an array gets the type
    mismatch returned, not thrown. *)
Theorem array_validate_thrown (v : value) (name : string) (d : descriptor)
    (w : world) :
  (forall e w', array_validate v name d w = (Throw e, w') ->
     w' = w /\ (exists l, v = VArr l) /\
     exists code limit,
       e = APIError code (("key", PStr name) :: limit) /\
       In code ["field_too_long"; "field_too_short"; "field_invalid"]) /\
  ((forall l, v <> VArr l) ->
     array_validate v name d w = (Ok (VError (OMTypeError "array" (typeof v))), w)).
Proof.
  split.
  - intros e w' H. destruct v; try discriminate.
    unfold array_validate in H.
    destruct (exceeds (arrlen items) (maxlen d)).
    { injection H as <- <-. split; [reflexivity|]. split; [eauto|].
      do 2 eexists. split; [reflexivity|]. simpl. auto. }
    destruct (exceeds (arrlen items) (minlen d)).
    { injection H as <- <-. split; [reflexivity|]. split; [eauto|].
      do 2 eexists. split; [reflexivity|]. simpl. auto. }
    destruct (mod_violated (arrlen items) (d_mod d)); [|discriminate].
    injection H as <- <-. split; [reflexivity|]. split; [eauto|].
    do 2 eexists. split; [reflexivity|]. simpl. auto.
  - intros H. destruct v; try reflexivity. now elim (H items).
Qed.

(* ===================================================================== *)
(** ** image-base64 *)
(* ===================================================================== *)

Lemma includes_char_In (s : string) (c : ascii) :
  includes_char s c = true <-> In c (list_ascii_of_string s).
Proof using.
  induction s as [|a t IH]; simpl.
  - split; [discriminate | contradiction].
  - rewrite orb_true_iff, IH, Ascii.eqb_eq. reflexivity.
Qed.

(** X8. On a string, [image-base64.validate] never throws and never
    answers [true]: it returns [undefined] exactly when the string starts
    with [data:image/] and holds none of the six refused characters, and
    an [Error] otherwise. *)
Theorem image_base64_validate_accepts_iff (s : string) (w : world) :
  (image_base64_validate (VStr s) w = (Ok VUndefined, w) <->
     startsWith s "data:image/" = true /\
     forall c, In c xss_chars -> ~ In c (list_ascii_of_string s)) /\
  (image_base64_validate (VStr s) w <> (Ok VUndefined, w) ->
     exists message, image_base64_validate (VStr s) w = (Ok (VError (JsError message)), w)).
Proof using.
  unfold image_base64_validate.
  destruct (startsWith s "data:image/"); cbn [negb].
  - destruct (existsb (includes_char s) xss_chars) eqn:Hx.
    + split.
      * split; [discriminate|]. intros [_ H].
        apply existsb_exists in Hx. destruct Hx as [c [Hc Hin]].
        apply includes_char_In in Hin. exfalso. exact (H c Hc Hin).
      * intros _. eexists. reflexivity.
    + split.
      * split; [|reflexivity]. intros _. split; [reflexivity|].
        intros c Hc Hin. apply includes_char_In in Hin.
        assert (Hex : existsb (includes_char s) xss_chars = true).
        { apply existsb_exists. exists c. split; assumption. }
        rewrite Hex in Hx. discriminate.
      * intros H. elim H. reflexivity.
  - split.
    + split; [discriminate | intros [H _]; discriminate].
    + intros _. eexists. reflexivity.
Qed.

(* ===================================================================== *)
(** ** puter-uuid: factory and validate together *)
(* ===================================================================== *)

Lemma append_inj_l (p a b : string) : p ++ a = p ++ b -> a = b.
Proof.
  induction p as [|c p IH]; simpl; intros H.
  - exact H.
  - injection H as H. now apply IH.
Qed.

(** X9. Whatever the descriptor, a value made by [puter-uuid.factory]
    carries the prefix [puter-uuid.validate] looks for, the absent prefix
    included: validating it answers what [is_valid_uuid] says of the
    identifier [uuid.v4()] generated. *)
Theorem puter_uuid_factory_then_validate (d : descriptor) (w : world) :
  (x <- puter_uuid_factory d ;; puter_uuid_validate x d) w
    = (Ok (VBool (is_valid_uuid (uuid_v4_gen (uuid_calls w)))),
       mkWorld (trace w ++ [EvUuidV4 (uuid_v4_gen (uuid_calls w))])
               (S (uuid_calls w))).
Proof.
  unfold puter_uuid_factory, puter_uuid_validate, bind, uuid_v4, ret.
  cbn beta iota. rewrite startsWith_app, slice_app. reflexivity.
Qed.

(** X10. Two calls of [puter-uuid.factory] in a row return different
    strings when the generator behind [uuid.v4()] never repeats. *)
Theorem puter_uuid_factory_fresh (d : descriptor) (w : world) :
  (forall n m, uuid_v4_gen n = uuid_v4_gen m -> n = m) ->
  result_of (puter_uuid_factory d) w
    <> result_of (puter_uuid_factory d) (snd (puter_uuid_factory d w)).
Proof.
  intros Hinj. unfold result_of, puter_uuid_factory, bind, uuid_v4, ret.
  cbn [fst snd uuid_calls]. intros H. injection H as H.
  apply append_inj_l, Hinj in H. now apply (n_Sn (uuid_calls w)).
Qed.

(* ===================================================================== *)
(** ** reference: storing and loading *)
(* ===================================================================== *)

(** X11. With a target service, storing an entity and loading it back
    reads the entity's identifier from the service once and returns the
    service's answer, unless the identifier is [0]: then the stored [0]
    is taken for an absent value and [null] is loaded without a read. *)
Theorem reference_store_then_load (ctx : Context) (e : Entity) (d : descriptor)
    (name : string) (svc : EntityService) (w : world) :
  service_name d = Some name ->
  svc_entity ctx name = Ok svc ->
  (ent_mysql_id e <> 0%Z ->
     (stored <- reference_sql_reference (VEntity e) d ;;
      reference_sql_dereference ctx stored d) w
       = (read svc (VNum (ent_mysql_id e)),
          mkWorld (trace w ++ [EvRead name (VNum (ent_mysql_id e))]) (uuid_calls w))) /\
  (ent_mysql_id e = 0%Z ->
     (stored <- reference_sql_reference (VEntity e) d ;;
      reference_sql_dereference ctx stored d) w = (Ok VNull, w)).
Proof.
  intros Hd Hsvc.
  unfold reference_sql_reference, reference_sql_dereference, bind, ret.
  rewrite Hd. cbn [truthy negb]. split.
  - intros Hid. apply Z.eqb_neq in Hid. rewrite Hid. cbn [negb].
    unfold lift, call_read, bind, emit, lift. rewrite Hsvc. reflexivity.
  - intros Hid. rewrite Hid. reflexivity.
Qed.

(** X12. [reference.sql_reference] asks no service and throws nothing,
    whatever the value and the descriptor; a falsy value is stored as
    [null] when a service is configured. *)
Theorem reference_sql_reference_pure (v : value) (d : descriptor) (w : world) :
  (exists stored, reference_sql_reference v d w = (Ok stored, w)) /\
  (forall name, service_name d = Some name -> truthy v = false ->
     reference_sql_reference v d w = (Ok VNull, w)).
Proof.
  unfold reference_sql_reference. split.
  - destruct (service_name d); [|eexists; reflexivity].
    destruct (truthy v); cbn [negb]; [|eexists; reflexivity].
    destruct v; try (eexists; reflexivity).
    destruct (find _ fields); eexists; reflexivity.
  - intros name Hd Hv. now rewrite Hd, Hv.
Qed.

(** X13. On a value that is not an [Entity], [reference.adapt] and
    [reference.sql_dereference] return the same thing: both give the value
    back without a service, [null] for a falsy value, and otherwise the
    answer of the same [read]. *)
Theorem reference_adapt_agrees_with_dereference (ctx : Context) (v : value)
    (d : descriptor) (w : world) :
  instanceof_Entity v = false ->
  result_of (reference_adapt ctx v d) w
    = result_of (reference_sql_dereference ctx v d) w.
Proof.
  intros He. unfold result_of, reference_adapt, reference_sql_dereference.
  destruct (service_name d) as [name|]; [|reflexivity].
  destruct (truthy v); cbn [negb]; [|reflexivity].
  rewrite He. unfold bind, lift, console_log, call_read, emit, bind, lift.
  destruct (svc_entity ctx name) as [svc|err]; [|reflexivity].
  cbn beta iota. destruct (read svc v); reflexivity.
Qed.

(** X14. Loading and then adapting costs one read: when the service
    answers an identifier with an entity, [reference.adapt] leaves the
    loaded entity as it is and asks nothing more. *)
Theorem reference_load_then_adapt (ctx : Context) (v : value) (d : descriptor)
    (name : string) (svc : EntityService) (e : Entity) (w : world) :
  service_name d = Some name ->
  svc_entity ctx name = Ok svc ->
  truthy v = true ->
  read svc v = Ok (VEntity e) ->
  (loaded <- reference_sql_dereference ctx v d ;; reference_adapt ctx loaded d) w
    = (Ok (VEntity e), mkWorld (trace w ++ [EvRead name v]) (uuid_calls w)).
Proof.
  intros Hd Hsvc Hv Hread.
  unfold reference_sql_dereference, reference_adapt, bind.
  rewrite Hd, Hv. cbn [negb].
  unfold lift, call_read, bind, emit, lift. rewrite Hsvc, Hread. reflexivity.
Qed.

(* ===================================================================== *)
(** ** puter-node: the rest of adapt and validate, and the SQL conversions *)
(* ===================================================================== *)

(** X15. [puter-node.is_set] holds wherever [base.is_set] holds, and the
    two differ on [null] alone, which only [puter-node] counts as set. *)
Theorem puter_node_is_set_vs_base (v : value) :
  (base_is_set v = true -> puter_node_is_set v = true) /\
  (puter_node_is_set v <> base_is_set v <-> v = VNull).
Proof.
  unfold puter_node_is_set, base_is_set. split.
  - intros H. now rewrite H.
  - split.
    + intros H. destruct v; try reflexivity;
        try (elim H; cbn [is_null]; now rewrite orb_false_r).
    + intros ->. discriminate.
Qed.

(** X16. A string that starts with none of [/], [.], [~] and that
    [is_valid_uuid4] accepts is looked up through the by-UID selector on
    the string itself. *)
Theorem puter_node_adapt_uuid (ctx : Context) (s name : string) (w : world) :
  includes ["/"; "."; "~"] (char0 s) = false ->
  is_valid_uuid4 s = true ->
  puter_node_adapt ctx (VStr s) name w
    = (node (svc_filesystem ctx) (Some (NodeUIDSelector s)),
       mkWorld (trace w ++ [EvFsNode (Some (NodeUIDSelector s))]) (uuid_calls w)).
Proof.
  intros Hhead Huuid.
  unfold puter_node_adapt, puter_node_selector. simpl.
  rewrite Hhead, Huuid. reflexivity.
Qed.

Lemma head_slash_or_dot (s : string) :
  includes ["/"; "."] (char0 s) = true ->
  exists t, s = String "/" t \/ s = String "." t.
Proof.
  destruct s as [|c t]; [discriminate|]. intros Hhead. exists t.
  cbn [includes char0 existsb] in Hhead.
  rewrite orb_false_r in Hhead. apply orb_true_iff in Hhead.
  destruct Hhead as [H | H]; apply String.eqb_eq in H;
    injection H as ->; auto.
Qed.

(** X17. A string that starts with [/] or [.] is taken as a path as it
    stands, a relative one included: when [is_valid_path] accepts it, it
    is looked up through the by-path selector on the unchanged string,
    with or without a user in context. *)
Theorem puter_node_adapt_path (ctx : Context) (s name : string) (w : world) :
  includes ["/"; "."] (char0 s) = true ->
  is_valid_path s = true ->
  puter_node_adapt ctx (VStr s) name w
    = (node (svc_filesystem ctx) (Some (NodePathSelector s)),
       mkWorld (trace w ++ [EvFsNode (Some (NodePathSelector s))]) (uuid_calls w)).
Proof.
  intros Hhead Hpath. destruct (head_slash_or_dot s Hhead) as [t [-> | ->]];
    unfold puter_node_adapt, puter_node_selector; simpl;
    unfold bind, ret; simpl; rewrite Hpath; reflexivity.
Qed.

(** X18. Whatever its argument, [puter-node.adapt] leaves the world as it
    was or adds one call of the filesystem service and nothing else. *)
Theorem puter_node_adapt_footprint (ctx : Context) (v : value) (name : string)
    (w : world) :
  uuid_calls (snd (puter_node_adapt ctx v name w)) = uuid_calls w /\
  (events_of (puter_node_adapt ctx v name) w = trace w \/
   exists sel,
     events_of (puter_node_adapt ctx v name) w = (trace w ++ [EvFsNode sel])%list).
Proof.
  unfold events_of.
  destruct v; try (split; [reflexivity | left; reflexivity]).
  unfold puter_node_adapt. cbn [is_null instanceof_FSNodeContext].
  unfold bind. destruct (puter_node_selector ctx s name w) as [[sel|e] w1] eqn:Hsel.
  - assert (Hw : w1 = w).
    { unfold puter_node_selector in Hsel.
      destruct (negb (includes ["/"; "."; "~"] (char0 s))).
      - destruct (is_valid_uuid4 s); injection Hsel as _ <-; reflexivity.
      - unfold bind in Hsel.
        destruct (startsWith s "~").
        + destruct (ctx_user ctx) as [user|]; [|discriminate].
          cbn in Hsel.
          destruct (is_valid_path _); cbn in Hsel;
            [injection Hsel as _ <-; reflexivity | discriminate].
        + cbn in Hsel.
          destruct (is_valid_path s); cbn in Hsel;
            [injection Hsel as _ <-; reflexivity | discriminate]. }
    subst w1. unfold call_fs_node, bind, emit, lift. cbn.
    split; [reflexivity|]. right. eexists. reflexivity.
  - assert (Hw : w1 = w).
    { unfold puter_node_selector in Hsel.
      destruct (negb (includes ["/"; "."; "~"] (char0 s))).
      - destruct (is_valid_uuid4 s); discriminate.
      - unfold bind in Hsel.
        destruct (startsWith s "~").
        + destruct (ctx_user ctx) as [user|];
            [|injection Hsel as _ <-; reflexivity].
          cbn in Hsel.
          destruct (is_valid_path _); cbn in Hsel;
            [discriminate | injection Hsel as _ <-; reflexivity].
        + cbn in Hsel.
          destruct (is_valid_path s); cbn in Hsel;
            [discriminate | injection Hsel as _ <-; reflexivity]. }
    subst w1. split; [reflexivity | left; reflexivity].
Qed.

(** X19. When the filesystem service answers with node handles,
    adapting twice is adapting once: the second [puter-node.adapt] returns
    what the first returned and consults nothing. *)
Theorem puter_node_adapt_idempotent (ctx : Context) (v : value) (name : string)
    (w : world) :
  (forall sel r, node (svc_filesystem ctx) sel = Ok r ->
                 instanceof_FSNodeContext r = true) ->
  (x <- puter_node_adapt ctx v name ;; puter_node_adapt ctx x name) w
    = puter_node_adapt ctx v name w.
Proof.
  intros Hfs. unfold bind.
  destruct (puter_node_adapt ctx v name w) as [[r|e] w1] eqn:Hrun; [|reflexivity].
  assert (Hr : r = VNull \/ r = VUndefined \/ instanceof_FSNodeContext r = true).
  { destruct v; try (injection Hrun as <- _; auto; fail).
    unfold puter_node_adapt in Hrun. cbn [is_null instanceof_FSNodeContext] in Hrun.
    unfold bind in Hrun.
    destruct (puter_node_selector ctx s name w) as [[sel|e] w2]; [|discriminate].
    unfold call_fs_node, bind, emit, lift in Hrun. cbn in Hrun.
    destruct (node (svc_filesystem ctx) sel) as [r'|e'] eqn:Hnode; [|discriminate].
    injection Hrun as <- _. right. right. exact (Hfs sel r' Hnode). }
  destruct Hr as [-> | [-> | Hr]]; try reflexivity.
  destruct r; try discriminate. reflexivity.
Qed.

(** X20. On a node that is not the root, [puter-node.validate] logs,
    then asks the access-control service for the permission of the
    descriptor, ["see"] when none is configured.  A truthy answer makes
    the node valid ([undefined] is returned); a falsy one is followed by
    one call of [get_safe_acl_error], whose answer is returned; and when
    the check throws, so does validate. *)
Theorem puter_node_validate_checks_acl (ctx : Context) (n : FSNodeContext)
    (name : string) (d : descriptor) (w : world) :
  node_path n <> "/" ->
  let actor := ctx_actor ctx in
  let permission := match fs_permission d with Some p => p | None => "see" end in
  let line := EvLog [VStr "actor??"; actor; VNode n; VStr permission] in
  let asked := EvAclCheck actor (VNode n) permission in
  (forall answer,
     check (svc_acl ctx) actor (VNode n) permission = Ok answer ->
     (truthy answer = true ->
        puter_node_validate ctx (VNode n) name d w
          = (Ok VUndefined, mkWorld (trace w ++ [line; asked]) (uuid_calls w))) /\
     (truthy answer = false ->
        puter_node_validate ctx (VNode n) name d w
          = (get_safe_acl_error (svc_acl ctx) actor (VNode n) permission,
             mkWorld (trace w ++ [line; asked;
                                  EvAclSafeError actor (VNode n) permission])
                     (uuid_calls w)))) /\
  (forall e,
     check (svc_acl ctx) actor (VNode n) permission = Throw e ->
     puter_node_validate ctx (VNode n) name d w
       = (Throw e, mkWorld (trace w ++ [line; asked]) (uuid_calls w))).
Proof.
  intros Hpath actor permission line asked.
  apply String.eqb_neq in Hpath.
  assert (Hrun : puter_node_validate ctx (VNode n) name d w
                 = match check (svc_acl ctx) actor (VNode n) permission with
                   | Ok answer =>
                       if negb (truthy answer) then
                         (get_safe_acl_error (svc_acl ctx) actor (VNode n) permission,
                          mkWorld (((trace w ++ [line]) ++ [asked]) ++
                                   [EvAclSafeError actor (VNode n) permission])
                                  (uuid_calls w))
                       else (Ok VUndefined,
                             mkWorld ((trace w ++ [line]) ++ [asked]) (uuid_calls w))
                   | Throw e =>
                       (Throw e, mkWorld ((trace w ++ [line]) ++ [asked]) (uuid_calls w))
                   end).
  { unfold puter_node_validate. cbn [is_null].
    unfold bind, console_log, emit, get_path, ret. cbn beta iota.
    rewrite Hpath.
    unfold call_acl_check, call_acl_safe_error, bind, emit, lift. cbn.
    fold actor. fold permission.
    destruct (check (svc_acl ctx) actor (VNode n) permission) as [answer|e];
      [|reflexivity].
    destruct (truthy answer); reflexivity. }
  rewrite Hrun. split.
  - intros answer Hanswer. rewrite Hanswer. split; intros Ht; rewrite Ht; cbn [negb].
    + now rewrite <- app_assoc.
    + now rewrite <- !app_assoc.
  - intros e He. rewrite He. now rewrite <- app_assoc.
Qed.

(** X21. [puter-node.validate] never calls the filesystem service and
    never draws an identifier, whatever it is given; on [null] it returns
    [undefined] and does nothing at all. *)
Theorem puter_node_validate_footprint (ctx : Context) (v : value) (name : string)
    (d : descriptor) (w : world) :
  (exists added,
     events_of (puter_node_validate ctx v name d) w = (trace w ++ added)%list /\
     forall sel, ~ In (EvFsNode sel) added) /\
  uuid_calls (snd (puter_node_validate ctx v name d w)) = uuid_calls w /\
  puter_node_validate ctx VNull name d w = (Ok VUndefined, w).
Proof.
  split; [|split; [|reflexivity]].
  - unfold events_of.
    destruct v; try (eexists; split; [reflexivity|];
                     intros sel [H|H]; [discriminate | contradiction]).
    + exists []. split; [cbn; now rewrite app_nil_r | intros sel H; contradiction].
    + unfold puter_node_validate. cbn [is_null].
      unfold bind, console_log, emit, get_path, ret. cbn beta iota.
      destruct (String.eqb (node_path n) "/").
      * eexists. split; [reflexivity|].
        intros sel [H|H]; [discriminate | contradiction].
      * unfold call_acl_check, call_acl_safe_error, bind, emit, lift. cbn.
        destruct (check (svc_acl ctx) _ _ _) as [answer|e].
        -- destruct (truthy answer); cbn.
           ++ eexists. split; [now rewrite <- app_assoc|].
              intros sel [H|[H|H]]; [discriminate | discriminate | contradiction].
           ++ eexists. split; [now rewrite <- !app_assoc|].
              intros sel [H|[H|[H|H]]];
                [discriminate | discriminate | discriminate | contradiction].
        -- eexists. split; [now rewrite <- app_assoc|].
           intros sel [H|[H|H]]; [discriminate | discriminate | contradiction].
  - destruct v; try reflexivity.
    unfold puter_node_validate. cbn [is_null].
    unfold bind, console_log, emit, get_path, ret. cbn beta iota.
    destruct (String.eqb (node_path n) "/"); [reflexivity|].
    unfold call_acl_check, call_acl_safe_error, bind, emit, lift. cbn.
    destruct (check (svc_acl ctx) _ _ _) as [answer|e]; [|reflexivity].
    destruct (truthy answer); reflexivity.
Qed.

(** X22. A value that is neither [null], a node handle nor a string
    passes [puter-node.adapt] as [undefined] and then makes
    [puter-node.validate] throw a [TypeError] right after its log line:
    no access check is made for it. *)
Theorem puter_node_adapt_then_validate_other (ctx : Context) (v : value)
    (name : string) (d : descriptor) (w : world) :
  v <> VNull -> instanceof_FSNodeContext v = false -> typeof v <> "string" ->
  exists message line,
    (x <- puter_node_adapt ctx v name ;; puter_node_validate ctx x name d) w
      = (Throw (TypeError message),
         mkWorld (trace w ++ [EvLog line]) (uuid_calls w)).
Proof.
  intros Hnull Hnode Hstr.
  assert (Hadapt : puter_node_adapt ctx v name w = (Ok VUndefined, w)).
  { destruct v; try reflexivity; try contradiction; discriminate. }
  unfold bind. rewrite Hadapt. do 2 eexists.
  unfold puter_node_validate, bind, console_log, emit, get_path, throw.
  cbn. reflexivity.
Qed.

(** X23. [puter-node.sql_reference] stores [null] for [null] without
    fetching anything, throws on every other value that is not a node
    handle, also without fetching, and for a node handle fetches its entry
    and stores the identifier found there, or [null] when the entry has
    none. *)
Theorem puter_node_sql_reference_cases (v : value) (w : world) :
  (v = VNull -> puter_node_sql_reference v w = (Ok VNull, w)) /\
  (v <> VNull -> instanceof_FSNodeContext v = false ->
     puter_node_sql_reference v w
       = (Throw (JsError "Cannot reference non-FSNodeContext"), w)) /\
  (forall n fetched w',
     v = VNode n -> fetchEntry n w = (Ok fetched, w') ->
     puter_node_sql_reference v w
       = (Ok match node_mysql_id fetched with
             | Some id => VNum id
             | None => VNull
             end, w')) /\
  (forall n e w',
     v = VNode n -> fetchEntry n w = (Throw e, w') ->
     puter_node_sql_reference v w = (Throw e, w')).
Proof.
  split; [|split; [|split]].
  - intros ->. reflexivity.
  - intros Hnull Hnode. destruct v; try reflexivity; try contradiction; discriminate.
  - intros n fetched w' -> Hfetch.
    unfold puter_node_sql_reference, bind. cbn [is_null]. now rewrite Hfetch.
  - intros n e w' -> Hfetch.
    unfold puter_node_sql_reference, bind. cbn [is_null]. now rewrite Hfetch.
Qed.

(** X24. Storing a node handle and loading it back: when the fetched
    entry has the identifier [id], the stored value is [id] and loading it
    asks the filesystem service for the node with the internal identifier
    [id] of the ["mysql"] store; when it has none, [null] is stored and
    [null], not the node, is loaded, with no lookup. *)
Theorem puter_node_store_then_load (ctx : Context) (n fetched : FSNodeContext)
    (w w' : world) :
  fetchEntry n w = (Ok fetched, w') ->
  exists stored load,
    puter_node_sql_reference (VNode n) w = (Ok stored, w') /\
    puter_node_sql_dereference ctx stored = Some load /\
    match node_mysql_id fetched with
    | Some id =>
        stored = VNum id /\
        load w' = (node (svc_filesystem ctx) (Some (NodeInternalIDSelector "mysql" id)),
                   mkWorld (trace w' ++ [EvFsNode (Some (NodeInternalIDSelector "mysql" id))])
                           (uuid_calls w'))
    | None => stored = VNull /\ load w' = (Ok VNull, w')
    end.
Proof.
  intros Hfetch.
  unfold puter_node_sql_reference, bind. cbn [is_null]. rewrite Hfetch.
  destruct (node_mysql_id fetched) as [id|];
    do 2 eexists; (split; [reflexivity|]); (split; [reflexivity|]);
    split; reflexivity.
Qed.

(** X25. [puter-node.sql_dereference] on a value that is neither [null]
    nor a number throws, and the filesystem service is not consulted. *)
Theorem puter_node_sql_dereference_non_number (ctx : Context) (v : value) :
  v <> VNull -> typeof v <> "number" ->
  exists load,
    puter_node_sql_dereference ctx v = Some load /\
    forall w, exists e, load w = (Throw e, w).
Proof.
  intros Hnull Hnum.
  destruct v; try contradiction;
    try (cbn in Hnum; now elim Hnum);
    (eexists; split; [reflexivity|]; intros w;
     unfold bind, lift, throw;
     match goal with
     | |- context [template_text ?x] => destruct (template_text x)
     end; eexists; reflexivity).
Qed.

End Types.

(* ===================================================================== *)
(** ** The properties at concrete inputs *)
(* ===================================================================== *)

(** [string.adapt(42)] throws "expected string, got number". *)
Lemma string_adapt_cases_witness :
  string_adapt (VNum 42) = throw (OMTypeError "string" "number") /\
  error_message (OMTypeError "string" "number") = "expected string, got number".
Proof.
  apply (proj2 (proj2 (proj2 string_adapt_cases)) (VNum 42)); discriminate.
Defined.

(** A five-character title against [maxlen: 3]. *)
Lemma validate_maxlen_exceeded_throws_witness :
  string_validate (VStr "hello") "title" (only_maxlen 3)
    = throw (APIError "field_too_long"
               [("key", PStr "title"); ("max_length", PNum 3)]).
Proof.
  apply (proj1 validate_maxlen_exceeded_throws "hello" "title" (only_maxlen 3) 3%Z).
  - reflexivity.
  - reflexivity.
Defined.

(** The identifier of the seeded application, under prefix ["app"]. *)
Lemma puter_uuid_prefix_app_witness :
  puter_uuid_validate sample_is_valid_uuid
      (VStr "app-fbbdb72b-ad08-4cb4-86a1-de0f27cf2e1e") (only_prefix "app") world0
    = (Ok (VBool true), world0) /\
  puter_uuid_validate sample_is_valid_uuid
      (VStr "other-fbbdb72b-ad08-4cb4-86a1-de0f27cf2e1e") (only_prefix "app") world0
    = (Ok (VError (JsError "UUID does not start with prefix app-")), world0) /\
  result_of (puter_uuid_factory sample_uuid_v4_gen (only_prefix "app")) world0
    = Ok (VStr "app-fbbdb72b-ad08-4cb4-86a1-de0f27cf2e1e").
Proof.
  destruct (puter_uuid_prefix_app sample_is_valid_uuid sample_uuid_v4_gen
              (only_prefix "app") eq_refl (fun x H => H)) as [Hok [Hsoft Hnew]].
  split; [|split].
  - apply (Hok sample_uuid world0). reflexivity.
  - apply Hsoft. reflexivity.
  - unfold result_of. rewrite (proj1 (Hnew world0 eq_refl)). reflexivity.
Defined.

(** C9, as stated, fails on a falsy value: with the service ["es:app"]
    configured and able to read an entity for the identifier [0],
    [reference.adapt(0)] returns [null] and the service is never asked. *)
Lemma reference_adapt_falsy_counterexample :
  exists svc,
    svc_entity (sample_context None) "es:app" = Ok svc /\
    read svc (VNum 0) = Ok sample_entity /\
    instanceof_Entity (VNum 0) = false /\
    reference_adapt (sample_context None) (VNum 0) (only_service "es:app") world0
      = (Ok VNull, world0).
Proof.
  eexists. repeat split; reflexivity.
Qed.

(** The identifier [7] is read through the service ["es:app"]. *)
Lemma reference_adapt_cases_witness :
  reference_adapt (sample_context None) (VNum 7) (only_service "es:app") world0
    = (Ok sample_entity,
       mkWorld [EvLog [VStr "VALUE BEING READ"; VNum 7]; EvRead "es:app" (VNum 7)] 0).
Proof.
  apply (proj2 (proj2 (proj2 (reference_adapt_cases (sample_context None) (VNum 7)
                                (only_service "es:app") world0)
                         "es:app" eq_refl))
           (mkEntityService (fun _ => Ok sample_entity))); reflexivity.
Defined.

(** The root node, with an access-control service that would allow it. *)
Lemma puter_node_validate_root_forbidden_witness :
  result_of (puter_node_validate (with_acl (sample_context None) (sample_acl true))
               (VNode (mkNode "/" "" None)) "parent" no_constraints) world0
    = Ok (VError (APIError "forbidden" [])) /\
  puter_node_validate (with_acl (sample_context None) (sample_acl true))
      (VNode (mkNode "/" "" None)) "parent" no_constraints world0
    = puter_node_validate (with_acl (sample_context None) (sample_acl false))
        (VNode (mkNode "/" "" None)) "parent" no_constraints world0.
Proof.
  destruct (puter_node_validate_root_forbidden (sample_context None)
              (mkNode "/" "" None) "parent" no_constraints world0 eq_refl)
    as [Hforbidden Hsame].
  split.
  - exact (proj1 (Hforbidden (sample_acl true))).
  - exact (Hsame (sample_acl true) (sample_acl false)).
Defined.

(** [puter-node.adapt(42)] *)
Lemma puter_node_adapt_other_values_undefined_witness :
  puter_node_adapt sample_is_valid_uuid sample_is_valid_path
      (sample_context None) (VNum 42) "parent" world0
    = (Ok VUndefined, world0).
Proof.
  apply puter_node_adapt_other_values_undefined; [discriminate | reflexivity | discriminate].
Defined.

(** [puter-node.adapt("hello")]: the filesystem service receives an
    undefined selector. *)
Lemma puter_node_adapt_unrecognised_string_looked_up_witness :
  puter_node_adapt sample_is_valid_uuid sample_is_valid_path
      (sample_context None) (VStr "hello") "parent" world0
    = (Throw (TypeError "selector is undefined"), mkWorld [EvFsNode None] 0).
Proof.
  exact (puter_node_adapt_unrecognised_string_looked_up
           sample_is_valid_uuid sample_is_valid_path
           (sample_context None) "hello" "parent" world0 eq_refl eq_refl).
Defined.

(** C7, as stated, fails when [~] is not followed by [/]: for the user
    ["alice"], ["~docs"] is looked up at ["/alicedocs"], whose first
    segment is not the username. *)
Lemma puter_node_adapt_home_first_segment_counterexample :
  puter_node_adapt sample_is_valid_uuid sample_is_valid_path
      (sample_context (Some (mkUser "alice"))) (VStr "~docs") "parent" world0
    = (Ok (VNode (mkNode "/alicedocs" "" None)),
       mkWorld [EvFsNode (Some (NodePathSelector "/alicedocs"))] 0) /\
  first_segment "/alicedocs" <> username (mkUser "alice").
Proof.
  split; [reflexivity | discriminate].
Qed.

(** ["~/docs"] for the user ["alice"] is looked up at ["/alice/docs"]. *)
Lemma puter_node_adapt_home_expansion_witness :
  puter_node_adapt sample_is_valid_uuid sample_is_valid_path
      (sample_context (Some (mkUser "alice"))) (VStr "~/docs") "parent" world0
    = (Ok (VNode (mkNode "/alice/docs" "" None)),
       mkWorld [EvFsNode (Some (NodePathSelector "/alice/docs"))] 0) /\
  first_segment "/alice/docs" = "alice" /\
  puter_node_adapt sample_is_valid_uuid sample_is_valid_path
      (sample_context None) (VStr "~/docs") "parent" world0
    = (Throw (JsError "Cannot use ~ without a user"), world0).
Proof.
  split; [|split].
  - apply (proj1 (proj1 (puter_node_adapt_home_expansion
                           sample_is_valid_uuid sample_is_valid_path
                           (sample_context (Some (mkUser "alice")))
                           "/docs" "parent" world0)
                    (mkUser "alice") eq_refl)).
    reflexivity.
  - apply (proj2 (proj2 (proj1 (puter_node_adapt_home_expansion
                                  sample_is_valid_uuid sample_is_valid_path
                                  (sample_context (Some (mkUser "alice")))
                                  "/docs" "parent" world0)
                           (mkUser "alice") eq_refl))).
    + reflexivity.
    + right. reflexivity.
  - apply (proj2 (puter_node_adapt_home_expansion
                    sample_is_valid_uuid sample_is_valid_path
                    (sample_context None) "/docs" "parent" world0)).
    reflexivity.
Defined.

(* ===================================================================== *)
(** ** The abuse-prevention middleware *)
(* ===================================================================== *)

(** X26. The middleware lets a request through to [next()] exactly when
    it is not a bot under [no_bots] and comes from the Puter origin under
    [puter_origin]; an option that is not set demands nothing. *)
Theorem abuse_next_iff (options : AbuseOptions) (requester : Requester) :
  abuse options requester = Ok NextCalled <->
  (no_bots options = true -> is_bot requester = false) /\
  (puter_origin options = true -> is_puter_origin requester = true).
Proof.
  unfold abuse.
  destruct (no_bots options), (is_bot requester); cbn [andb].
  - split.
    + intros H. destruct (shadow_ban_responder options) as [[answer|e]|];
        discriminate.
    + intros [H _]. specialize (H eq_refl). discriminate.
  - destruct (puter_origin options), (is_puter_origin requester); cbn [andb negb];
      (split; [ first [discriminate | intros _; split; auto]
              | first [reflexivity | intros [_ H]; specialize (H eq_refl); discriminate]]).
  - destruct (puter_origin options), (is_puter_origin requester); cbn [andb negb];
      (split; [ first [discriminate | intros _; split; intros; auto; discriminate]
              | first [reflexivity | intros [_ H]; specialize (H eq_refl); discriminate]]).
  - destruct (puter_origin options), (is_puter_origin requester); cbn [andb negb];
      (split; [ first [discriminate | intros _; split; intros; auto; discriminate]
              | first [reflexivity | intros [_ H]; specialize (H eq_refl); discriminate]]).
Qed.

(** X27. A response is produced for bots alone, and is the shadow-ban
    responder's: a bot under [no_bots] never reaches the origin check, and
    with no responder the middleware only calls [next()] or throws
    [forbidden]. *)
Theorem abuse_response_only_for_bots (options : AbuseOptions) (requester : Requester) :
  (forall answer,
     abuse options requester = Ok (Responded answer) ->
     no_bots options = true /\ is_bot requester = true /\
     shadow_ban_responder options = Some (Ok answer)) /\
  (no_bots options = true -> is_bot requester = true ->
   forall origin,
     abuse options requester
       = abuse options (mkRequester true origin)) /\
  (shadow_ban_responder options = None ->
     abuse options requester = Ok NextCalled \/
     abuse options requester = Throw (APIError "forbidden" [])).
Proof.
  unfold abuse. split; [|split].
  - intros answer H.
    destruct (no_bots options), (is_bot requester); cbn [andb] in H;
      try (destruct (puter_origin options && negb (is_puter_origin requester));
           discriminate).
    destruct (shadow_ban_responder options) as [[a|e]|]; try discriminate.
    injection H as ->. auto.
  - intros Hn Hb origin. rewrite Hn, Hb. reflexivity.
  - intros Hr. rewrite Hr.
    destruct (no_bots options && is_bot requester); [now right|].
    destruct (puter_origin options && negb (is_puter_origin requester)); auto.
Qed.

(* ===================================================================== *)
(** ** The insert helper of the migration *)
(* ===================================================================== *)

Lemma count_char_app (c : ascii) (a b : string) :
  count_char c (a ++ b) = (count_char c a + count_char c b)%nat.
Proof.
  induction a as [|x a IH]; simpl.
  - reflexivity.
  - rewrite IH. apply Nat.add_assoc.
Qed.

Lemma count_placeholders (keys : list string) :
  count_char "?" (placeholders keys) = List.length keys.
Proof.
  unfold placeholders. induction keys as [|k rest IH].
  - reflexivity.
  - destruct rest as [|k' rest'].
    + reflexivity.
    + change (join ", " (map (fun _ : string => "?") (k :: k' :: rest')))
        with ("?" ++ ", " ++ join ", " (map (fun _ : string => "?") (k' :: rest'))).
      rewrite !count_char_app, IH. reflexivity.
Qed.

Lemma property_of_own_key (subject : list (string * value)) (k : string) (v : value) :
  NoDup (map fst subject) -> In (k, v) subject -> property subject k = v.
Proof.
  induction subject as [|[k0 v0] rest IH]; intros Hnodup Hin.
  - contradiction.
  - cbn [map fst] in Hnodup. apply NoDup_cons_iff in Hnodup.
    destruct Hnodup as [Hfresh Hrest]. cbn [property].
    destruct Hin as [Heq | Hin].
    + injection Heq as -> ->. now rewrite String.eqb_refl.
    + destruct (String.eqb_spec k0 k) as [-> | Hne].
      * elim Hfresh. apply (in_map fst) in Hin. exact Hin.
      * now apply IH.
Qed.

(** X28. For an object whose keys are distinct, [insert] passes to
    [write] the values of the object in the order of its keys, and a
    statement that lists the keys and has exactly one [?] per parameter
    in its [VALUES] list. *)
Theorem insert_parameters_match (tbl : string) (subject : list (string * value)) :
  NoDup (map fst subject) ->
  snd (insert tbl subject) = map snd subject /\
  fst (insert tbl subject)
    = "INSERT INTO `" ++ tbl ++ "` (" ++ join ", " (map fst subject)
        ++ ") VALUES (" ++ placeholders (map fst subject) ++ ")" /\
  count_char "?" (placeholders (map fst subject))
    = List.length (snd (insert tbl subject)).
Proof.
  intros Hnodup. unfold insert. cbn [fst snd]. split; [|split].
  - rewrite map_map. apply map_ext_in. intros [k v] Hin.
    now apply property_of_own_key.
  - rewrite map_id. reflexivity.
  - rewrite count_placeholders, !length_map. reflexivity.
Qed.

(* ===================================================================== *)
(** ** The further properties at concrete inputs *)
(* ===================================================================== *)

Lemma unary_inj (n m : nat) : unary n = unary m -> n = m.
Proof.
  revert m. induction n as [|n IH]; intros [|m] H; try discriminate.
  - reflexivity.
  - injection H as H. now rewrite (IH m H).
Qed.

Lemma sample_fs_answers_nodes (sel : option selector) (r : value) :
  node sample_fs sel = Ok r -> instanceof_FSNodeContext r = true.
Proof.
  destruct sel as [[uid|store id|path]|]; simpl; intros H;
    try discriminate; injection H as <-; reflexivity.
Qed.

(** [flag.adapt('1')] *)
Lemma flag_adapt_truth_table_witness :
  flag_adapt (VStr "1") world0 = (Ok (VBool true), world0).
Proof.
  apply (proj2 (proj1 (flag_adapt_truth_table (VStr "1") world0))).
  right. right. reflexivity.
Defined.

Lemma flag_adapt_idempotent_witness :
  world0 = world0 /\ (exists b, VBool true = VBool b) /\
  flag_adapt (VBool true) world0 = (Ok (VBool true), world0).
Proof.
  apply (flag_adapt_idempotent (VNum 1) (VBool true) world0 world0). reflexivity.
Defined.

Lemma string_adapt_then_validate_witness :
  string_adapt (VStr "") world0 = (Ok (VStr ""), world0).
Proof.
  apply (proj1 (proj2 (proj2 (string_adapt_then_validate VNull (VStr "") world0 world0
                                eq_refl)))).
Defined.

Lemma string_validate_thrown_witness :
  world0 = world0 /\
  exists s, VStr "hello" = VStr s /\
    ((exceeds (strlen s) (maxlen (only_maxlen 3)) = true /\
      APIError "field_too_long" [("key", PStr "title"); ("max_length", PNum 3)]
        = APIError "field_too_long"
            [("key", PStr "title"); ("max_length", prop_num (maxlen (only_maxlen 3)))]) \/
     (exceeds (strlen s) (maxlen (only_maxlen 3)) = false /\
      exceeds (strlen s) (minlen (only_maxlen 3)) = true /\
      APIError "field_too_long" [("key", PStr "title"); ("max_length", PNum 3)]
        = APIError "field_too_short"
            [("key", PStr "title"); ("min_length", prop_num (maxlen (only_maxlen 3)))])).
Proof.
  apply (string_validate_thrown (VStr "hello") "title" (only_maxlen 3) world0 world0).
  reflexivity.
Defined.

(** Two characters against [minlen: 3] are accepted. *)
Lemma string_validate_accepts_iff_witness :
  string_validate (VStr "ab") "title" (only_minlen 3) world0 = (Ok (VBool true), world0).
Proof.
  apply (proj2 (string_validate_accepts_iff "ab" "title" (only_minlen 3) world0)).
  split; [reflexivity|]. split; [reflexivity|]. intros r H. discriminate H.
Defined.

(** Four elements against [mod: 2]. *)
Lemma array_validate_mod_witness :
  array_validate (VArr [VNum 1; VNum 2; VNum 3; VNum 4]) "pairs" (only_mod 2) world0
    = (Ok (VBool true), world0).
Proof.
  apply (proj1 (array_validate_mod [VNum 1; VNum 2; VNum 3; VNum 4] "pairs"
                  (only_mod 2) 2%Z world0 eq_refl eq_refl eq_refl)).
  split; [discriminate|]. exists 2%Z. reflexivity.
Defined.

Lemma array_validate_thrown_witness :
  array_validate (VStr "x") "tags" no_constraints world0
    = (Ok (VError (OMTypeError "array" "string")), world0).
Proof.
  apply (proj2 (array_validate_thrown (VStr "x") "tags" no_constraints world0)).
  intros l H. discriminate H.
Defined.

Lemma image_base64_validate_accepts_iff_witness :
  image_base64_validate (VStr "data:image/png;base64,PHN2Zz4=") world0
    = (Ok VUndefined, world0).
Proof.
  apply (proj2 (proj1 (image_base64_validate_accepts_iff
                         "data:image/png;base64,PHN2Zz4=" world0))).
  split; [reflexivity|].
  intros c Hc Hin. apply includes_char_In in Hin.
  destruct Hc as [<-|[<-|[<-|[<-|[<-|[<-|[]]]]]]]; discriminate Hin.
Defined.

Lemma puter_uuid_factory_fresh_witness :
  result_of (puter_uuid_factory unary (only_prefix "app")) world0
    <> result_of (puter_uuid_factory unary (only_prefix "app"))
         (snd (puter_uuid_factory unary (only_prefix "app") world0)).
Proof.
  apply (puter_uuid_factory_fresh unary (only_prefix "app") world0 unary_inj).
Defined.

Lemma reference_store_then_load_witness :
  (stored <- reference_sql_reference (VEntity (mkEntity "app" 7)) (only_service "es:app") ;;
   reference_sql_dereference (sample_store_context (mkEntity "app" 7)) stored
     (only_service "es:app")) world0
    = (Ok (VEntity (mkEntity "app" 7)), mkWorld [EvRead "es:app" (VNum 7)] 0).
Proof.
  apply (proj1 (reference_store_then_load (sample_store_context (mkEntity "app" 7))
                  (mkEntity "app" 7) (only_service "es:app") "es:app"
                  (sample_store (mkEntity "app" 7)) world0 eq_refl eq_refl)).
  discriminate.
Defined.

Lemma reference_sql_reference_pure_witness :
  reference_sql_reference (VStr "") (only_service "es:app") world0 = (Ok VNull, world0).
Proof.
  apply (proj2 (reference_sql_reference_pure (VStr "") (only_service "es:app") world0)
           "es:app"); reflexivity.
Defined.

Lemma reference_adapt_agrees_with_dereference_witness :
  result_of (reference_adapt (sample_store_context (mkEntity "app" 7)) (VNum 7)
               (only_service "es:app")) world0
    = result_of (reference_sql_dereference (sample_store_context (mkEntity "app" 7))
                   (VNum 7) (only_service "es:app")) world0.
Proof.
  apply reference_adapt_agrees_with_dereference. reflexivity.
Defined.

Lemma reference_load_then_adapt_witness :
  (loaded <- reference_sql_dereference (sample_store_context (mkEntity "app" 7))
               (VNum 7) (only_service "es:app") ;;
   reference_adapt (sample_store_context (mkEntity "app" 7)) loaded
     (only_service "es:app")) world0
    = (Ok (VEntity (mkEntity "app" 7)), mkWorld [EvRead "es:app" (VNum 7)] 0).
Proof.
  apply (reference_load_then_adapt (sample_store_context (mkEntity "app" 7)) (VNum 7)
           (only_service "es:app") "es:app" (sample_store (mkEntity "app" 7))
           (mkEntity "app" 7) world0); reflexivity.
Defined.

Lemma reference_roundtrip_without_service_witness :
  (stored <- reference_sql_reference (VNum 7) no_constraints ;;
   reference_sql_dereference (sample_context None) stored no_constraints)
    = ret (VNum 7).
Proof.
  apply reference_roundtrip_without_service. reflexivity.
Defined.

Lemma puter_node_is_set_vs_base_witness :
  puter_node_is_set (VStr "/alice") = true.
Proof.
  apply (proj1 (puter_node_is_set_vs_base (VStr "/alice"))). reflexivity.
Defined.

Lemma puter_node_adapt_uuid_witness :
  puter_node_adapt sample_is_valid_uuid sample_is_valid_path (sample_context None)
      (VStr sample_uuid) "parent" world0
    = (Ok (VNode (mkNode "" sample_uuid None)),
       mkWorld [EvFsNode (Some (NodeUIDSelector sample_uuid))] 0).
Proof.
  apply (puter_node_adapt_uuid sample_is_valid_uuid sample_is_valid_path
           (sample_context None) sample_uuid "parent" world0); reflexivity.
Defined.

Lemma puter_node_adapt_path_witness :
  puter_node_adapt sample_is_valid_uuid sample_is_valid_path (sample_context None)
      (VStr "./notes") "parent" world0
    = (Ok (VNode (mkNode "./notes" "" None)),
       mkWorld [EvFsNode (Some (NodePathSelector "./notes"))] 0).
Proof.
  apply (puter_node_adapt_path sample_is_valid_uuid sample_is_valid_path
           (sample_context None) "./notes" "parent" world0); reflexivity.
Defined.

Lemma puter_node_adapt_invalid_path_throws_witness :
  puter_node_adapt sample_is_valid_uuid (fun _ => false) (sample_context None)
      (VStr "/a") "parent" world0
    = (Throw (APIError "field_invalid"
                [("key", PStr "parent"); ("expected", PStr "unix-style path or UUID")]),
       world0).
Proof.
  apply (puter_node_adapt_invalid_path_throws sample_is_valid_uuid (fun _ => false)
           (sample_context None) "/a" "parent" world0); reflexivity.
Defined.

Lemma puter_node_adapt_idempotent_witness :
  (x <- puter_node_adapt sample_is_valid_uuid sample_is_valid_path
          (sample_context None) (VStr "/alice") "parent" ;;
   puter_node_adapt sample_is_valid_uuid sample_is_valid_path
     (sample_context None) x "parent") world0
    = puter_node_adapt sample_is_valid_uuid sample_is_valid_path
        (sample_context None) (VStr "/alice") "parent" world0.
Proof.
  apply (puter_node_adapt_idempotent sample_is_valid_uuid sample_is_valid_path
           (sample_context None) (VStr "/alice") "parent" world0).
  exact sample_fs_answers_nodes.
Defined.

Lemma puter_node_validate_checks_acl_witness :
  puter_node_validate (with_acl (sample_context None) (sample_acl false))
      (VNode (mkNode "/alice/docs" "" None)) "parent" no_constraints world0
    = (Ok (VError (APIError "subject_does_not_exist" [])),
       mkWorld [EvLog [VStr "actor??"; VObj []; VNode (mkNode "/alice/docs" "" None);
                       VStr "see"];
                EvAclCheck (VObj []) (VNode (mkNode "/alice/docs" "" None)) "see";
                EvAclSafeError (VObj []) (VNode (mkNode "/alice/docs" "" None)) "see"]
               0).
Proof.
  assert (Hpath : node_path (mkNode "/alice/docs" "" None) <> "/") by discriminate.
  apply (proj2 (proj1 (puter_node_validate_checks_acl
                         (with_acl (sample_context None) (sample_acl false))
                         (mkNode "/alice/docs" "" None) "parent" no_constraints
                         world0 Hpath)
                  (VBool false) eq_refl)).
  reflexivity.
Defined.

Lemma puter_node_adapt_then_validate_other_witness :
  exists message line,
    (x <- puter_node_adapt sample_is_valid_uuid sample_is_valid_path
            (sample_context None) (VNum 42) "parent" ;;
     puter_node_validate (sample_context None) x "parent" no_constraints) world0
      = (Throw (TypeError message), mkWorld ([] ++ [EvLog line]) 0).
Proof.
  apply (puter_node_adapt_then_validate_other sample_is_valid_uuid sample_is_valid_path
           (sample_context None) (VNum 42) "parent" no_constraints world0);
    [discriminate | reflexivity | discriminate].
Defined.

Lemma puter_node_sql_reference_cases_witness :
  puter_node_sql_reference sample_fetchEntry (VStr "/alice") world0
    = (Throw (JsError "Cannot reference non-FSNodeContext"), world0).
Proof.
  apply (proj1 (proj2 (puter_node_sql_reference_cases sample_fetchEntry
                         (VStr "/alice") world0)));
    [discriminate | reflexivity].
Defined.

Lemma puter_node_store_then_load_witness :
  exists stored load,
    puter_node_sql_reference sample_fetchEntry (VNode (mkNode "/alice" "" (Some 5%Z))) world0
      = (Ok stored, world0) /\
    puter_node_sql_dereference sample_template_text (sample_context None) stored
      = Some load /\
    stored = VNum 5 /\
    load world0
      = (Ok (VNode (mkNode "" "" (Some 5%Z))),
         mkWorld [EvFsNode (Some (NodeInternalIDSelector "mysql" 5%Z))] 0).
Proof.
  apply (puter_node_store_then_load sample_fetchEntry sample_template_text
           (sample_context None) (mkNode "/alice" "" (Some 5%Z))
           (mkNode "/alice" "" (Some 5%Z)) world0 world0).
  reflexivity.
Defined.

Lemma puter_node_sql_dereference_non_number_witness :
  exists load,
    puter_node_sql_dereference sample_template_text (sample_context None) (VStr "abc")
      = Some load /\
    forall w, exists e, load w = (Throw e, w).
Proof.
  apply (puter_node_sql_dereference_non_number sample_template_text
           (sample_context None) (VStr "abc")); discriminate.
Defined.

(** A bot is stopped under [no_bots]; a browser on the Puter origin passes. *)
Lemma abuse_next_iff_witness :
  abuse (mkAbuseOptions true None true) (mkRequester false true) = Ok NextCalled.
Proof.
  apply (proj2 (abuse_next_iff (mkAbuseOptions true None true) (mkRequester false true))).
  split; intros _; reflexivity.
Defined.

Lemma abuse_response_only_for_bots_witness :
  abuse (mkAbuseOptions true None false) (mkRequester true false) = Ok NextCalled \/
  abuse (mkAbuseOptions true None false) (mkRequester true false)
    = Throw (APIError "forbidden" []).
Proof.
  apply (proj2 (proj2 (abuse_response_only_for_bots (mkAbuseOptions true None false)
                         (mkRequester true false)))).
  reflexivity.
Defined.

Lemma insert_parameters_match_witness :
  snd (insert "apps" [("uid", VStr "app-fbbdb72b-ad08-4cb4-86a1-de0f27cf2e1e");
                      ("owner_user_id", VNum 1)])
    = [VStr "app-fbbdb72b-ad08-4cb4-86a1-de0f27cf2e1e"; VNum 1].
Proof.
  apply (proj1 (insert_parameters_match "apps"
                  [("uid", VStr "app-fbbdb72b-ad08-4cb4-86a1-de0f27cf2e1e");
                   ("owner_user_id", VNum 1)]
                  ltac:(repeat constructor; simpl; intuition discriminate))).
Defined.
